(** * initial_load.js: export of a warehouse table to an archive object and a key-value table

    A shallow embedding of [src/initial_load.js].  The script reads every row of
    one Snowflake table ([fetchAllRows]), stores the rows as one JSON document
    in S3 ([dumpToS3]) and loads them into DynamoDB in batches of 25
    ([writeToDynamoDB]); [main] sequences the three steps and turns any error
    into [process.exitCode = 1].

    JavaScript strings are sequences of UTF-16 code units, modelled as
    [list N].  The calls into the Snowflake and AWS clients are recorded as
    events of a trace; what the outside world answers is read from a [world]. *)

From Stdlib Require Import String Ascii.
From stdpp Require Import gmap strings list.

Open Scope N_scope.
Open Scope nat_scope.

(** ** Strings *)

Definition jsstring : Type := list N.

(** A string literal of the source, as code units. *)
Definition lit (s : string) : jsstring :=
  map N_of_ascii (list_ascii_of_string s).
Arguments lit s : simpl never.

(** [Number::toString] on a non-negative integer (an array length): its
    decimal digits. *)
Definition digit_unit (d : nat) : N := (48 + N.of_nat d)%N.

Fixpoint decimal_digits (fuel n : nat) (acc : jsstring) : jsstring :=
  match fuel with
  | O => acc
  | S fuel' =>
      let acc' := digit_unit (n mod 10) :: acc in
      if n / 10 =? 0 then acc' else decimal_digits fuel' (n / 10) acc'
  end.

Definition length_toString (n : nat) : jsstring := decimal_digits (S n) n [].

(** ** JSON text: strings

    [QuoteJSONString] and the string production of [JSON.parse], on code
    units (ECMA-262, 25.5). *)

Definition hex_digit (d : N) : N := (if d <? 10 then 48 + d else 87 + d)%N.

(** [UnicodeEscape]: a backslash, [u] and four lowercase hexadecimal digits. *)
Definition UnicodeEscape (c : N) : jsstring :=
  [92; 117; hex_digit (c / 4096 mod 16); hex_digit (c / 256 mod 16);
   hex_digit (c / 16 mod 16); hex_digit (c mod 16)]%N.

Definition is_leading_surrogate (c : N) : bool := ((55296 <=? c) && (c <=? 56319))%N.
Definition is_trailing_surrogate (c : N) : bool := ((56320 <=? c) && (c <=? 57343))%N.

(** One code point that is not a surrogate pair: the two-character escapes of
    the table, [UnicodeEscape] for the other control characters and for a lone
    surrogate, the code unit itself otherwise. *)
Definition quote_code_unit (c : N) : jsstring :=
  (if c =? 8 then [92; 98]
   else if c =? 9 then [92; 116]
   else if c =? 10 then [92; 110]
   else if c =? 12 then [92; 102]
   else if c =? 13 then [92; 114]
   else if c =? 34 then [92; 34]
   else if c =? 92 then [92; 92]
   else if (c <? 32) || is_leading_surrogate c || is_trailing_surrogate c
        then UnicodeEscape c
   else [c])%N.

(** The code points of a string in turn: a leading surrogate followed by a
    trailing one is a pair and is copied; anything else is a code point of
    its own. *)
Fixpoint quote_code_units (s : jsstring) : jsstring :=
  match s with
  | [] => []
  | c :: s' =>
      if is_leading_surrogate c then
        match s' with
        | d :: s'' =>
            if is_trailing_surrogate d then c :: d :: quote_code_units s''
            else UnicodeEscape c ++ quote_code_units s'
        | [] => UnicodeEscape c
        end
      else quote_code_unit c ++ quote_code_units s'
  end.

Definition QuoteJSONString (s : jsstring) : jsstring :=
  [34%N] ++ quote_code_units s ++ [34%N].

Definition hex_value (c : N) : option N :=
  (if (48 <=? c) && (c <=? 57) then Some (c - 48)
   else if (97 <=? c) && (c <=? 102) then Some (c - 87)
   else if (65 <=? c) && (c <=? 70) then Some (c - 55)
   else None)%N.

Definition hex4_value (h1 h2 h3 h4 : N) : option N :=
  match hex_value h1, hex_value h2, hex_value h3, hex_value h4 with
  | Some a, Some b, Some c, Some d => Some (a * 4096 + b * 256 + c * 16 + d)%N
  | _, _, _, _ => None
  end.

(** The character a two-character escape stands for. *)
Definition unescape (e : N) : option N :=
  (if e =? 34 then Some 34
   else if e =? 92 then Some 92
   else if e =? 47 then Some 47
   else if e =? 98 then Some 8
   else if e =? 102 then Some 12
   else if e =? 110 then Some 10
   else if e =? 114 then Some 13
   else if e =? 116 then Some 9
   else None)%N.

(** The characters of a JSON string after its opening quote, up to and
    including the closing quote: the string's value and the rest of the text. *)
Fixpoint parse_string_body (s : jsstring) : option (jsstring * jsstring) :=
  match s with
  | [] => None
  | c :: r =>
      if (c =? 34)%N then Some ([], r)
      else if (c =? 92)%N then
        match r with
        | [] => None
        | e :: r' =>
            if (e =? 117)%N then
              match r' with
              | h1 :: h2 :: h3 :: h4 :: r'' =>
                  match hex4_value h1 h2 h3 h4 with
                  | Some u =>
                      match parse_string_body r'' with
                      | Some (str, rest) => Some (u :: str, rest)
                      | None => None
                      end
                  | None => None
                  end
              | _ => None
              end
            else
              match unescape e with
              | Some u =>
                  match parse_string_body r' with
                  | Some (str, rest) => Some (u :: str, rest)
                  | None => None
                  end
              | None => None
              end
        end
      else if (c <? 32)%N then None
      else
        match parse_string_body r with
        | Some (str, rest) => Some (c :: str, rest)
        | None => None
        end
  end.

(** What reading a string gives once the code unit [c] stands before it. *)
Definition prepend (c : N) (o : option (jsstring * jsstring)) : option (jsstring * jsstring) :=
  match o with
  | Some (str, rest) => Some (c :: str, rest)
  | None => None
  end.

(** ** JSON text: numbers

    The number production of the JSON grammar, as an automaton:
    an optional minus, an integer part without leading zeros, an optional
    fraction and an optional exponent. *)
Inductive number_state : Type :=
| NStart | NMinus | NZero | NInt | NDot | NFrac | NExp | NExpSign | NExpDigits.

Definition is_digit (c : N) : bool := ((48 <=? c) && (c <=? 57))%N.
Definition is_exponent_mark (c : N) : bool := ((c =? 101) || (c =? 69))%N.
Definition is_sign (c : N) : bool := ((c =? 43) || (c =? 45))%N.

Definition number_step (st : number_state) (c : N) : option number_state :=
  match st with
  | NStart =>
      if (c =? 45)%N then Some NMinus
      else if (c =? 48)%N then Some NZero
      else if is_digit c then Some NInt else None
  | NMinus =>
      if (c =? 48)%N then Some NZero
      else if is_digit c then Some NInt else None
  | NZero =>
      if (c =? 46)%N then Some NDot
      else if is_exponent_mark c then Some NExp else None
  | NInt =>
      if is_digit c then Some NInt
      else if (c =? 46)%N then Some NDot
      else if is_exponent_mark c then Some NExp else None
  | NDot => if is_digit c then Some NFrac else None
  | NFrac =>
      if is_digit c then Some NFrac
      else if is_exponent_mark c then Some NExp else None
  | NExp =>
      if is_sign c then Some NExpSign
      else if is_digit c then Some NExpDigits else None
  | NExpSign => if is_digit c then Some NExpDigits else None
  | NExpDigits => if is_digit c then Some NExpDigits else None
  end.

Definition number_final (st : number_state) : bool :=
  match st with
  | NZero | NInt | NFrac | NExpDigits => true
  | _ => false
  end.

Fixpoint number_accepts (st : number_state) (s : jsstring) : bool :=
  match s with
  | [] => number_final st
  | c :: r =>
      match number_step st c with
      | Some st' => number_accepts st' r
      | None => false
      end
  end.

Definition is_JSONNumber (tok : jsstring) : bool := number_accepts NStart tok.

(** The characters a number token is made of. *)
Definition is_number_char (c : N) : bool :=
  is_digit c || is_sign c || (c =? 46)%N || is_exponent_mark c.

(** The longest run of number characters at the head of the text. *)
Fixpoint span_number (s : jsstring) : jsstring * jsstring :=
  match s with
  | [] => ([], [])
  | c :: r =>
      if is_number_char c then
        let '(tok, rest) := span_number r in (c :: tok, rest)
      else ([], s)
  end.

(** ** JSON text: white space, literals and separators *)

Definition is_ws (c : N) : bool :=
  ((c =? 32) || (c =? 9) || (c =? 10) || (c =? 13))%N.

Fixpoint skip_ws (s : jsstring) : jsstring :=
  match s with
  | [] => []
  | c :: r => if is_ws c then skip_ws r else s
  end.

Fixpoint strip_prefix (p s : jsstring) : option jsstring :=
  match p, s with
  | [], _ => Some s
  | a :: p', b :: s' => if (a =? b)%N then strip_prefix p' s' else None
  | _ :: _, [] => None
  end.

(** The parts of a list, with the separator between them. *)
Fixpoint join (sep : jsstring) (parts : list jsstring) : jsstring :=
  match parts with
  | [] => []
  | [p] => p
  | p :: parts' => p ++ sep ++ join sep parts'
  end.

(** ** Numbers

    A number is an IEEE double.  The finite doubles other than negative zero
    are kept abstract; negative zero and the three values that are not
    finite are constructors, since [JSON.stringify] treats them apart:
    [-0] is written as [0] and the other three as [null]. *)
Inductive number (finite : Type) : Type :=
| NaN
| PosInfinity
| NegInfinity
| NegZero
| Finite (x : finite).
Arguments NaN {finite}.
Arguments PosInfinity {finite}.
Arguments NegInfinity {finite}.
Arguments NegZero {finite}.
Arguments Finite {finite} x.

(** ** A monad for asynchronous functions

    An [async] function either fulfils with a value or rejects with an error;
    [await] of a rejected promise throws, which ends the function unless a
    [try] encloses it.  The monad threads the state of the process. *)
Inductive outcome (E A : Type) : Type :=
| Fulfilled (a : A)
| Rejected (err : E).
Arguments Fulfilled {E A} a.
Arguments Rejected {E A} err.

Definition M (S E A : Type) : Type := S -> outcome E A * S.

Definition ret {S E A} (a : A) : M S E A := fun st => (Fulfilled a, st).

Definition throw {S E A} (err : E) : M S E A := fun st => (Rejected err, st).

Definition bind {S E A B} (m : M S E A) (k : A -> M S E B) : M S E B :=
  fun st =>
    match m st with
    | (Fulfilled a, st') => k a st'
    | (Rejected err, st') => (Rejected err, st')
    end.

(** [try { m } catch (err) { handler err }] *)
Definition try_catch {S E A} (m : M S E A) (handler : E -> M S E A) : M S E A :=
  fun st =>
    match m st with
    | (Fulfilled a, st') => (Fulfilled a, st')
    | (Rejected err, st') => handler err st'
    end.

Notation "'do' x <- m ; k" := (bind m (fun x => k))
  (at level 10, x name, m at level 100, k at level 200).

(** ** The non-negative integers as numbers

    A concrete reading of the number primitives, on which the development is
    exercised: a natural number is printed in decimal, and a token of digits
    is read in decimal. *)
Module Integers.

Fixpoint digits_value (s : jsstring) (acc : nat) : nat :=
  match s with
  | [] => acc
  | c :: r => digits_value r (acc * 10 + N.to_nat (c - 48))
  end.

Definition toString (n : nat) : jsstring := length_toString n.

Definition zero : nat := 0.

Definition token_value (tok : jsstring) : number nat := Finite (digits_value tok 0).

End Integers.

Section InitialLoad.

(** ** Values *)
Context {finite : Type}.
Local Abbreviation number := (number finite).

(** The scalar values a row holds: one per column. *)
Inductive value : Type :=
| VNull
| VBoolean (b : bool)
| VNumber (n : number)
| VString (s : jsstring).

(** A row is a JavaScript object: its own enumerable properties in
    enumeration order.  Property names of an object are distinct. *)
Definition row : Type := list (jsstring * value).

Definition own_keys (r : row) : list jsstring := r.*1.

Definition wf_row (r : row) : Prop := NoDup (own_keys r).

(** [obj[k]] on an own property. *)
Fixpoint get {V : Type} (k : jsstring) (members : list (jsstring * V)) : option V :=
  match members with
  | [] => None
  | (k', v) :: members' => if decide (k' = k) then Some v else get k members'
  end.

(** ** The write requests of the Index Writer *)

(** [{ Item: row }] *)
Record put_request : Type := { Item : row }.

(** [{ PutRequest: { Item: row } }] *)
Record write_request : Type := { PutRequest : put_request }.

Definition batch : Type := list write_request.

(** Line 62: the write request pushed for a row, with the row as its item. *)
Definition write_item (r : row) : write_request :=
  {| PutRequest := {| Item := r |} |}.

(** Lines 59-68 of [writeToDynamoDB]: the loop over [rows] keeps the finished
    [batches] and the batch being filled, [current]; [push_row] is one turn
    of the loop, and line 68 adds what is left in [current]. *)
Definition push_row (st : list batch * batch) (r : row) : list batch * batch :=
  let '(batches, current) := st in
  let current := current ++ [write_item r] in
  if length current =? 25 then (batches ++ [current], []) else (batches, current).

Definition make_batches (rows : list row) : list batch :=
  let '(batches, current) := foldl push_row ([], []) rows in
  if negb (length current =? 0) then batches ++ [current] else batches.

(** ** Errors, configuration and the requests sent to the clients *)

(** An error value raised by one of the clients. *)
Record error : Type := { message : jsstring }.

(** [process.env]: a variable is a string or absent ([undefined]). *)
Record environment : Type := {
  SNOWFLAKE_ACCOUNT : option jsstring;
  SNOWFLAKE_USER : option jsstring;
  SNOWFLAKE_PASSWORD : option jsstring;
  SNOWFLAKE_WAREHOUSE : option jsstring;
  SNOWFLAKE_DATABASE : option jsstring;
  SNOWFLAKE_SCHEMA : option jsstring;
  S3_BUCKET : option jsstring;
  S3_KEY_PREFIX : jsstring;
  DYNAMO_TABLE_NAME : option jsstring
}.

(** Lines 8-18: the destructuring of [process.env].  A default initialiser is
    used exactly when the property is [undefined]. *)
Definition read_env (process_env : gmap string jsstring) : environment :=
  {| SNOWFLAKE_ACCOUNT := process_env !! "SNOWFLAKE_ACCOUNT"%string;
     SNOWFLAKE_USER := process_env !! "SNOWFLAKE_USER"%string;
     SNOWFLAKE_PASSWORD := process_env !! "SNOWFLAKE_PASSWORD"%string;
     SNOWFLAKE_WAREHOUSE := process_env !! "SNOWFLAKE_WAREHOUSE"%string;
     SNOWFLAKE_DATABASE := process_env !! "SNOWFLAKE_DATABASE"%string;
     SNOWFLAKE_SCHEMA := process_env !! "SNOWFLAKE_SCHEMA"%string;
     S3_BUCKET := process_env !! "S3_BUCKET"%string;
     S3_KEY_PREFIX :=
       match process_env !! "S3_KEY_PREFIX"%string with
       | Some p => p
       | None => lit "click_performance/"
       end;
     DYNAMO_TABLE_NAME := process_env !! "DYNAMO_TABLE_NAME"%string |}.

Definition TABLE_NAME : jsstring :=
  lit "SEGMENT_EVENTS.GOOGLE_ADS_CLICK_PARAMETERS.CLICK_PERFORMANCE_REPORTS".

(** The options object of [snowflake.createConnection]. *)
Record connection_options : Type := {
  account : option jsstring;
  username : option jsstring;
  password : option jsstring;
  warehouse : option jsstring;
  database : option jsstring;
  schema : option jsstring
}.

(** The parameters of [s3.putObject]. *)
Record putObject_params : Type := {
  Bucket : option jsstring;
  Key : jsstring;
  Body : jsstring
}.

(** [ToPropertyKey] of a configuration value used as a computed key. *)
Definition ToPropertyKey (v : option jsstring) : jsstring :=
  match v with
  | Some s => s
  | None => lit "undefined"
  end.

(** The parameters of [ddb.batchWrite]: [RequestItems] has one property, the
    table name, whose value is the batch. *)
Record batchWrite_params : Type := {
  RequestItems : list (jsstring * batch)
}.

(** ** Events and the outside world *)

(** What the script does, in order: the calls into the clients and the
    console, the settling of the promise of [fetchAllRows], and the entry into
    each of the three pipeline functions. *)
Inductive function_name : Type :=
| fn_fetchAllRows | fn_writeToDynamoDB | fn_dumpToS3.

Inductive event : Type :=
| Enter (fn : function_name)
| SfCreateConnection (opts : connection_options)
| SfConnect
| SfExecute (sqlText : jsstring)
| SfDestroy
| PromiseResolve (rows : list row)
| PromiseReject (err : error)
| S3PutObject (params : putObject_params)
| DdbBatchWrite (params : batchWrite_params)
| ConsoleLog (msg : jsstring)
| ConsoleError (err : error).

(** What the services answer.  An answer may depend on the request and on
    everything that happened before it.  [createConnection_answer] is the
    error [snowflake.createConnection] throws when it refuses the options,
    before any connection is attempted. *)
Record world : Type := {
  process_env : gmap string jsstring;
  createConnection_answer : connection_options -> option error;
  connect_answer : connection_options -> option error;
  execute_answer : connection_options -> jsstring -> error + list row;
  putObject_answer : list event -> putObject_params -> option error;
  batchWrite_answer : list event -> batchWrite_params -> option error
}.

(** The state of the process: the events so far and [process.exitCode]
    ([None] while it is [undefined]). *)
Record state : Type := {
  trace : list event;
  exitCode : option Z
}.

Definition initial_state : state := {| trace := []; exitCode := None |}.

(** The status the process exits with when the event loop drains. *)
Definition exit_status (st : state) : Z := default 0%Z (exitCode st).

(** The script's asynchronous functions. *)
Local Abbreviation M := (M state error).

Definition emit (e : event) : M unit :=
  fun st => (Fulfilled tt, {| trace := trace st ++ [e]; exitCode := exitCode st |}).

Definition history : M (list event) := fun st => (Fulfilled (trace st), st).

Definition set_exitCode (c : Z) : M unit :=
  fun st => (Fulfilled tt, {| trace := trace st; exitCode := Some c |}).

Definition s3_putObject (w : world) (params : putObject_params) : M unit :=
  do h <- history;
  do _ <- emit (S3PutObject params);
  match putObject_answer w h params with
  | Some err => throw err
  | None => ret tt
  end.

Definition ddb_batchWrite (w : world) (params : batchWrite_params) : M unit :=
  do h <- history;
  do _ <- emit (DdbBatchWrite params);
  match batchWrite_answer w h params with
  | Some err => throw err
  | None => ret tt
  end.

(** ** JSON.stringify and JSON.parse *)

(** [Number::toString] on a finite number other than [-0], the number a JSON
    number token denotes, and the number [+0]: primitives of the runtime. *)
Variable Number_toString : finite -> jsstring.
Variable JSONNumber_value : jsstring -> number.
Variable zero : finite.

(** What ECMA-262 guarantees of them: [+0] is written as [0], and the text of
    a finite number other than [-0] is a JSON number token that reads back as
    the same number.  ([-0] is written as [0] too, and so reads back as
    [+0].) *)
Definition Number_toString_spec : Prop :=
  Number_toString zero = lit "0" /\
  forall x : finite,
    is_JSONNumber (Number_toString x) = true /\
    JSONNumber_value (Number_toString x) = Finite x.

(** [SerializeJSONProperty] on a scalar: a number that is not finite is
    written as [null], and [-0], like [+0], as [0]. *)
Definition SerializeJSONProperty (v : value) : jsstring :=
  match v with
  | VNull => lit "null"
  | VBoolean true => lit "true"
  | VBoolean false => lit "false"
  | VNumber (Finite x) => Number_toString x
  | VNumber NegZero => lit "0"
  | VNumber (NaN | PosInfinity | NegInfinity) => lit "null"
  | VString s => QuoteJSONString s
  end.

Definition SerializeJSONMember (kv : jsstring * value) : jsstring :=
  QuoteJSONString kv.1 ++ lit ":" ++ SerializeJSONProperty kv.2.

Definition SerializeJSONObject (r : row) : jsstring :=
  match r with
  | [] => lit "{}"
  | _ => lit "{" ++ join (lit ",") (map SerializeJSONMember r) ++ lit "}"
  end.

Definition SerializeJSONArray (rows : list row) : jsstring :=
  match rows with
  | [] => lit "[]"
  | _ => lit "[" ++ join (lit ",") (map SerializeJSONObject rows) ++ lit "]"
  end.

(** [JSON.stringify(rows)] *)
Definition JSON_stringify (rows : list row) : jsstring := SerializeJSONArray rows.

(** The values [JSON.parse] builds. *)
#[warnings="-register-all"]
Inductive json : Type :=
| JNull
| JBoolean (b : bool)
| JNumber (n : number)
| JString (s : jsstring)
| JArray (elements : list json)
| JObject (members : list (jsstring * json)).

(** [CreateDataProperty]: a repeated name keeps its place and takes the later
    value.  The members are kept in the order in which they were created,
    the order of the text; for a text written from an object that is the
    object's enumeration order. *)
Fixpoint CreateDataProperty (members : list (jsstring * json)) (k : jsstring) (v : json)
  : list (jsstring * json) :=
  match members with
  | [] => [(k, v)]
  | (k', v') :: members' =>
      if decide (k' = k) then (k', v) :: members'
      else (k', v') :: CreateDataProperty members' k v
  end.

(** The result of reading a value: the value and the rest of the text. *)
Definition parsed : Type := option (json * jsstring).

(** One value.  [elements] and [members] read the inside of an array and of
    an object. *)
Definition value_step
    (elements : jsstring -> list json -> parsed)
    (members : jsstring -> list (jsstring * json) -> parsed)
    (s : jsstring) : parsed :=
  match skip_ws s with
  | [] => None
  | c :: r =>
      if (c =? 123)%N then
        match skip_ws r with
        | [] => None
        | d :: r' =>
            if (d =? 125)%N then Some (JObject [], r')
            else members (d :: r') []
        end
      else if (c =? 91)%N then
        match skip_ws r with
        | [] => None
        | d :: r' =>
            if (d =? 93)%N then Some (JArray [], r')
            else elements (d :: r') []
        end
      else if (c =? 34)%N then
        match parse_string_body r with
        | Some (str, rest) => Some (JString str, rest)
        | None => None
        end
      else if (c =? 45)%N || is_digit c then
        let '(tok, rest) := span_number (c :: r) in
        if is_JSONNumber tok then Some (JNumber (JSONNumber_value tok), rest)
        else None
      else
        match strip_prefix (lit "true") (c :: r) with
        | Some rest => Some (JBoolean true, rest)
        | None =>
            match strip_prefix (lit "false") (c :: r) with
            | Some rest => Some (JBoolean false, rest)
            | None =>
                match strip_prefix (lit "null") (c :: r) with
                | Some rest => Some (JNull, rest)
                | None => None
                end
            end
        end
  end.

(** One element of an array and what follows it: a comma and the other
    elements, or the closing bracket. *)
Definition elements_step
    (value : jsstring -> parsed)
    (elements : jsstring -> list json -> parsed)
    (s : jsstring) (acc : list json) : parsed :=
  match value s with
  | None => None
  | Some (v, r) =>
      match skip_ws r with
      | [] => None
      | c :: r' =>
          if (c =? 44)%N then elements r' (acc ++ [v])
          else if (c =? 93)%N then Some (JArray (acc ++ [v]), r')
          else None
      end
  end.

(** One member of an object, a name, a colon and a value, and what follows
    it: a comma and the other members, or the closing brace. *)
Definition members_step
    (value : jsstring -> parsed)
    (members : jsstring -> list (jsstring * json) -> parsed)
    (s : jsstring) (acc : list (jsstring * json)) : parsed :=
  match skip_ws s with
  | [] => None
  | q :: r =>
      if (q =? 34)%N then
        match parse_string_body r with
        | None => None
        | Some (k, r1) =>
            match skip_ws r1 with
            | [] => None
            | c1 :: r2 =>
                if (c1 =? 58)%N then
                  match value r2 with
                  | None => None
                  | Some (v, r3) =>
                      match skip_ws r3 with
                      | [] => None
                      | c3 :: r4 =>
                          if (c3 =? 44)%N
                          then members r4 (CreateDataProperty acc k v)
                          else if (c3 =? 125)%N
                          then Some (JObject (CreateDataProperty acc k v), r4)
                          else None
                      end
                  end
                else None
            end
        end
      else None
  end.

(** The recursive descent, bounded by [fuel]. *)
Fixpoint parse_value (fuel : nat) (s : jsstring) {struct fuel} : parsed :=
  match fuel with
  | O => None
  | S fuel' => value_step (parse_elements fuel') (parse_members fuel') s
  end
with parse_elements (fuel : nat) (s : jsstring) (acc : list json) {struct fuel} : parsed :=
  match fuel with
  | O => None
  | S fuel' => elements_step (parse_value fuel') (parse_elements fuel') s acc
  end
with parse_members (fuel : nat) (s : jsstring) (acc : list (jsstring * json)) {struct fuel}
  : parsed :=
  match fuel with
  | O => None
  | S fuel' => members_step (parse_value fuel') (parse_members fuel') s acc
  end.

(** [JSON.parse(text)]: one value, white space around it, nothing else.  A
    call of the descent reads at least one character, so the length of the
    text bounds its depth. *)
Definition JSON_parse (text : jsstring) : option json :=
  match parse_value (S (length text)) text with
  | Some (v, rest) =>
      match skip_ws rest with
      | [] => Some v
      | _ :: _ => None
      end
  | None => None
  end.

(** A source value as [JSON.parse] would build it. *)
Definition json_of_value (v : value) : json :=
  match v with
  | VNull => JNull
  | VBoolean b => JBoolean b
  | VNumber n => JNumber n
  | VString s => JString s
  end.

Definition is_finite_value (v : value) : bool :=
  match v with
  | VNumber (NaN | PosInfinity | NegInfinity) => false
  | _ => true
  end.

Definition is_negative_zero (v : value) : bool :=
  match v with
  | VNumber NegZero => true
  | _ => false
  end.

(** ** The script *)

(** Lines 29-36: the options object. *)
Definition connection_options_of (env : environment) : connection_options :=
  {| account := SNOWFLAKE_ACCOUNT env;
     username := SNOWFLAKE_USER env;
     password := SNOWFLAKE_PASSWORD env;
     warehouse := SNOWFLAKE_WAREHOUSE env;
     database := SNOWFLAKE_DATABASE env;
     schema := SNOWFLAKE_SCHEMA env |}.

Definition query_text : jsstring := lit "SELECT * FROM " ++ TABLE_NAME.

(** Lines 27-56.  An error thrown by [createConnection] inside the executor
    rejects the promise; [connect] is then not called. *)
Definition fetchAllRows (w : world) : M (list row) :=
  do _ <- emit (Enter fn_fetchAllRows);
  let opts := connection_options_of (read_env (process_env w)) in
  do _ <- emit (SfCreateConnection opts);
  match createConnection_answer w opts with
  | Some err =>
      do _ <- emit (PromiseReject err);
      throw err
  | None =>
      do _ <- emit SfConnect;
      match connect_answer w opts with
      | Some err =>
          do _ <- emit (PromiseReject err);
          throw err
      | None =>
          let sqlText := query_text in
          do _ <- emit (SfExecute sqlText);
          let answer := execute_answer w opts sqlText in
          do _ <- emit SfDestroy;
          match answer with
          | inl err =>
              do _ <- emit (PromiseReject err);
              throw err
          | inr rows =>
              do _ <- emit (PromiseResolve rows);
              ret rows
          end
      end
  end.

(** Lines 70-77: one awaited [batchWrite] per batch, in order. *)
Definition batch_params (w : world) (b : batch) : batchWrite_params :=
  {| RequestItems :=
       [(ToPropertyKey (DYNAMO_TABLE_NAME (read_env (process_env w))), b)] |}.

Fixpoint write_batches (w : world) (batches : list batch) : M unit :=
  match batches with
  | [] => ret tt
  | b :: batches' =>
      let params := batch_params w b in
      do _ <- ddb_batchWrite w params;
      write_batches w batches'
  end.

(** Lines 58-78. *)
Definition writeToDynamoDB (w : world) (rows : list row) : M unit :=
  do _ <- emit (Enter fn_writeToDynamoDB);
  write_batches w (make_batches rows).

(** Lines 80-87. *)
Definition dumpToS3 (w : world) (rows : list row) (key : jsstring) : M unit :=
  do _ <- emit (Enter fn_dumpToS3);
  let params :=
    {| Bucket := S3_BUCKET (read_env (process_env w));
       Key := key;
       Body := JSON_stringify rows |} in
  s3_putObject w params.

(** Line 92. *)
Definition archive_key (w : world) : jsstring :=
  S3_KEY_PREFIX (read_env (process_env w)) ++ lit "initial_load.json".

(** Lines 89-100. *)
Definition success_message (rows : list row) : jsstring :=
  lit "Wrote " ++ length_toString (length rows) ++ lit " records to S3 and DynamoDB".

Definition main (w : world) : M unit :=
  try_catch
    (do rows <- fetchAllRows w;
     let key := archive_key w in
     do _ <- dumpToS3 w rows key;
     do _ <- writeToDynamoDB w rows;
     emit (ConsoleLog (success_message rows)))
    (fun err =>
       do _ <- emit (ConsoleError err);
       set_exitCode 1).


(** Lines 102-104: [main] is called when the file is run as a script, and not
    when it is loaded as a module.  The call is not awaited and has no
    handler of its own. *)
Definition script (is_main_module : bool) (w : world) : M unit :=
  if is_main_module then main w else ret tt.

(** ** Observations on a trace *)

(** The bulk-write calls of a trace, in order. *)
Definition bulk_writes (tr : list event) : list batchWrite_params :=
  omap (fun e => match e with DdbBatchWrite p => Some p | _ => None end) tr.

(** The object writes of a trace, in order. *)
Definition object_writes (tr : list event) : list putObject_params :=
  omap (fun e => match e with S3PutObject p => Some p | _ => None end) tr.

Definition is_success_log (e : event) : bool :=
  match e with ConsoleLog _ => true | _ => false end.

(** The smallest number of groups of [d] that hold [n] things. *)
Definition ceil_div (n d : nat) : nat := (n + (d - 1)) / d.

Definition is_console (e : event) : bool :=
  match e with ConsoleLog _ | ConsoleError _ => true | _ => false end.

Definition is_settlement (e : event) : bool :=
  match e with PromiseResolve _ | PromiseReject _ => true | _ => false end.

(** Wherever the promise is settled in the trace, [connection.destroy] has
    been called before. *)
Definition released_before_settled (tr : list event) : Prop :=
  forall pre e post,
    tr = pre ++ e :: post -> is_settlement e = true -> SfDestroy ∈ pre.

(** The state after the [catch] block of [main] has handled an error. *)
Definition failed (st : state) (err : error) : state :=
  {| trace := trace st ++ [ConsoleError err]; exitCode := Some 1%Z |}.

(** The archive is faithful to the rows: the body, parsed as JSON, is an array
    with one object per row, and the object at each position has the property
    names of the row at that position and, under each name, the row's value. *)
Definition archive_faithful (rows : list row) (body : jsstring) : Prop :=
  exists objects,
    JSON_parse body = Some (JArray objects) /\
    length objects = length rows /\
    forall i r, rows !! i = Some r ->
      exists members,
        objects !! i = Some (JObject members) /\
        members.*1 = own_keys r /\
        forall k, get k members = json_of_value <$> get k r.

(** A value that [JSON.stringify] does not change: anything but a number that
    is not finite or is negative zero. *)
Definition is_exact_value (v : value) : bool :=
  is_finite_value v && negb (is_negative_zero v).

(** Every number in the rows is finite and is not negative zero. *)
Definition exact_rows (rows : list row) : Prop :=
  Forall (fun r : row => Forall (fun kv => is_exact_value kv.2 = true) r) rows.

(** The state in which a run of the script ends. *)
Definition final_state (w : world) : state := snd (main w initial_state).

(** The state after some more events. *)
Definition after (st : state) (evs : list event) : state :=
  {| trace := trace st ++ evs; exitCode := exitCode st |}.

(** ** Auxiliary definitions for the proofs *)

(** The events of the bulk-write calls for some batches. *)
Definition batch_calls (w : world) (batches : list batch) : list event :=
  map (fun b => DdbBatchWrite (batch_params w b)) batches.

(** What [JSON.parse] gives for the text [JSON.stringify] writes for a value:
    the value itself, except that a number that is not finite comes back as
    [null] and negative zero as [+0]. *)
Definition JSON_image (v : value) : json :=
  match v with
  | VNumber (NaN | PosInfinity | NegInfinity) => JNull
  | VNumber NegZero => JNumber (Finite zero)
  | _ => json_of_value v
  end.

(** The object read back for a row. *)
Definition image_members (r : row) : list (jsstring * json) :=
  map (fun kv => (kv.1, JSON_image kv.2)) r.

Definition image_row (r : row) : json := JObject (image_members r).

(** The fuel that reading an array of these rows takes. *)
Fixpoint elements_fuel (rows : list row) : nat :=
  match rows with
  | [] => 0
  | r :: rows' => S (max (length r + 2) (elements_fuel rows'))
  end.

(** The events of [fetchAllRows] once the connection was made, up to the
    settling of the promise. *)
Definition fetch_events (w : world) (last : event) : list event :=
  [Enter fn_fetchAllRows;
   SfCreateConnection (connection_options_of (read_env (process_env w)));
   SfConnect; SfExecute query_text; SfDestroy; last].

(** The parameters of the one [putObject] call. *)
Definition archive_params (w : world) (rows : list row) : putObject_params :=
  {| Bucket := S3_BUCKET (read_env (process_env w));
     Key := archive_key w;
     Body := JSON_stringify rows |}.

End InitialLoad.

(** ** Scenarios

    Concrete rows and worlds, with the integers as numbers, on which the
    properties below are exercised. *)
Module Scenario.

Definition refused : error := {| message := lit "refused" |}.

(** A row of three columns. *)
Definition click (n : nat) : row :=
  [(lit "gclid", VString (lit "Cj0KCQ"));
   (lit "clicks", VNumber (Finite n));
   (lit "is_mobile", VBoolean true)].

Definition clicks (n : nat) : list row := map click (seq 0 n).

(** A row whose one column holds [NaN], as a [FLOAT] column can. *)
Definition nan_row : row (finite := nat) := [(lit "cost", VNumber NaN)].

(** The text [JSON.stringify] writes for [[nan_row]]. *)
Definition nan_body : jsstring :=
  lit "[{" ++ [34%N] ++ lit "cost" ++ [34%N] ++ lit ":null}]".

(** A row whose one column holds negative zero. *)
Definition negative_zero_row : row (finite := nat) := [(lit "delta", VNumber NegZero)].

(** The text [JSON.stringify] writes for [[negative_zero_row]]. *)
Definition negative_zero_body : jsstring :=
  lit "[{" ++ [34%N] ++ lit "delta" ++ [34%N] ++ lit ":0}]".

(** [createConnection] refuses the options, as it does when the account is
    not configured. *)
Definition invalid_options : world (finite := nat) :=
  {| process_env := ∅;
     createConnection_answer := fun _ => Some refused;
     connect_answer := fun _ => None;
     execute_answer := fun _ _ => inr [];
     putObject_answer := fun _ _ => None;
     batchWrite_answer := fun _ _ => None |}.

(** Every service answers without error; the query returns [rows]. *)
Definition calm (rows : list row) : world (finite := nat) :=
  {| process_env := ∅;
     createConnection_answer := fun _ => None;
     connect_answer := fun _ => None;
     execute_answer := fun _ _ => inr rows;
     putObject_answer := fun _ _ => None;
     batchWrite_answer := fun _ _ => None |}.

(** Connecting to the warehouse fails. *)
Definition unreachable : world (finite := nat) :=
  {| process_env := ∅;
     createConnection_answer := fun _ => None;
     connect_answer := fun _ => Some refused;
     execute_answer := fun _ _ => inr [];
     putObject_answer := fun _ _ => None;
     batchWrite_answer := fun _ _ => None |}.

(** The query fails. *)
Definition query_fails : world (finite := nat) :=
  {| process_env := ∅;
     createConnection_answer := fun _ => None;
     connect_answer := fun _ => None;
     execute_answer := fun _ _ => inl refused;
     putObject_answer := fun _ _ => None;
     batchWrite_answer := fun _ _ => None |}.

(** The object store refuses the write. *)
Definition archive_fails (rows : list row) : world (finite := nat) :=
  {| process_env := ∅;
     createConnection_answer := fun _ => None;
     connect_answer := fun _ => None;
     execute_answer := fun _ _ => inr rows;
     putObject_answer := fun _ _ => Some refused;
     batchWrite_answer := fun _ _ => None |}.

(** The second bulk write fails, and so would every later one. *)
Definition second_batch_fails (rows : list row) : world (finite := nat) :=
  {| process_env := ∅;
     createConnection_answer := fun _ => None;
     connect_answer := fun _ => None;
     execute_answer := fun _ _ => inr rows;
     putObject_answer := fun _ _ => None;
     batchWrite_answer := fun h _ => if length (bulk_writes h) <? 1 then None else Some refused |}.

(** The prefix is set, to the empty string. *)
Definition empty_prefix : world (finite := nat) :=
  {| process_env := {[ "S3_KEY_PREFIX"%string := ([] : jsstring) ]};
     createConnection_answer := fun _ => None;
     connect_answer := fun _ => None;
     execute_answer := fun _ _ => inr (clicks 2);
     putObject_answer := fun _ _ => None;
     batchWrite_answer := fun _ _ => None |}.

End Scenario.

(** Membership in a trace given as a list of events. *)
Ltac refute_membership H :=
  lazymatch type of H with
  | _ \/ _ => destruct H as [H|H]; refute_membership H
  | False => destruct H
  | _ => discriminate H
  end.

Ltac prove_membership := first [ left; reflexivity | right; prove_membership ].

Ltac trace_membership :=
  rewrite ?elem_of_app, ?elem_of_cons, ?elem_of_nil;
  first [ prove_membership | let H := fresh in intros H; refute_membership H ].

(** * Properties *)

(** ** Decimal digits *)

Lemma digit_unit_value (d : nat) : d < 10 -> N.to_nat (digit_unit d - 48) = d.
Proof. unfold digit_unit. lia. Qed.

Lemma digit_unit_is_digit (d : nat) : d < 10 -> is_digit (digit_unit d) = true.
Proof.
  intros Hd. unfold is_digit, digit_unit.
  apply andb_true_intro. split; apply N.leb_le; lia.
Qed.

Lemma digits_value_decimal_digits (fuel : nat) :
  forall n acc,
    n < fuel ->
    Integers.digits_value (decimal_digits fuel n acc) 0 = Integers.digits_value acc n.
Proof.
  induction fuel as [|fuel IH]; intros n acc Hn; [lia|].
  cbn [decimal_digits].
  pose proof (Nat.mod_upper_bound n 10 ltac:(lia)) as Hmod.
  pose proof (Nat.div_mod_eq n 10) as Hdiv.
  destruct (Nat.eqb_spec (n / 10) 0) as [E|E].
  - cbn [Integers.digits_value]. rewrite digit_unit_value by done. f_equal. lia.
  - rewrite IH by lia.
    cbn [Integers.digits_value]. rewrite digit_unit_value by done. f_equal. lia.
Qed.

Lemma decimal_digits_are_digits (fuel : nat) :
  forall n acc,
    Forall (fun c => is_digit c = true) acc ->
    Forall (fun c => is_digit c = true) (decimal_digits fuel n acc).
Proof.
  induction fuel as [|fuel IH]; intros n acc Hacc; [done|].
  cbn [decimal_digits].
  pose proof (Nat.mod_upper_bound n 10 ltac:(lia)) as Hmod.
  assert (Forall (fun c => is_digit c = true) (digit_unit (n mod 10) :: acc)) as Hacc'
    by (constructor; [by apply digit_unit_is_digit|done]).
  destruct (n / 10 =? 0); [done|]. by apply IH.
Qed.

Section Properties.

(** A proof depends on the section's variables its statement names, and on no
    other. *)
Set Default Proof Using "Type".

Context {finite : Type}.
Variable Number_toString : finite -> jsstring.
Variable JSONNumber_value : jsstring -> number finite.
Variable zero : finite.

(** The definitions above, at the numbers of this section. *)
Local Abbreviation number := (number finite).
Local Abbreviation M := (M (@state finite) error).
Local Abbreviation value := (@value finite).
Local Abbreviation row := (@row finite).
Local Abbreviation write_request := (@write_request finite).
Local Abbreviation batch := (@batch finite).
Local Abbreviation batchWrite_params := (@batchWrite_params finite).
Local Abbreviation event := (@event finite).
Local Abbreviation world := (@world finite).
Local Abbreviation state := (@state finite).
Local Abbreviation json := (@json finite).
Local Abbreviation initial_state := (@initial_state finite).
Local Abbreviation SerializeJSONProperty := (SerializeJSONProperty Number_toString).
Local Abbreviation SerializeJSONMember := (SerializeJSONMember Number_toString).
Local Abbreviation SerializeJSONObject := (SerializeJSONObject Number_toString).
Local Abbreviation SerializeJSONArray := (SerializeJSONArray Number_toString).
Local Abbreviation JSON_stringify := (JSON_stringify Number_toString).
Local Abbreviation dumpToS3 := (dumpToS3 Number_toString).
Local Abbreviation main := (main Number_toString).
Local Abbreviation final_state := (final_state Number_toString).
Local Abbreviation script := (script Number_toString).
Local Abbreviation archive_params := (archive_params Number_toString).
Local Abbreviation parse_value := (parse_value JSONNumber_value).
Local Abbreviation parse_elements := (parse_elements JSONNumber_value).
Local Abbreviation parse_members := (parse_members JSONNumber_value).
Local Abbreviation JSON_parse := (JSON_parse JSONNumber_value).
Local Abbreviation archive_faithful := (archive_faithful JSONNumber_value).
Local Abbreviation value_step := (value_step JSONNumber_value).
Local Abbreviation Number_toString_spec :=
  (Number_toString_spec Number_toString JSONNumber_value zero).
Local Abbreviation JSON_image := (JSON_image zero).
Local Abbreviation image_members := (image_members zero).
Local Abbreviation image_row := (image_row zero).


(** ** Batching *)

Lemma foldl_push_row (rows : list row) :
  forall batches current,
    length current < 25 ->
    exists full current',
      foldl push_row (batches, current) rows = (batches ++ full, current') /\
      Forall (fun b => length b = 25) full /\
      length current' < 25 /\
      concat full ++ current' = current ++ map write_item rows.
Proof.
  induction rows as [|r rows IH]; intros batches current Hlt.
  - exists [], current. simpl. rewrite !app_nil_r. repeat split; auto.
  - simpl. destruct (length (current ++ [write_item r]) =? 25) eqn:E.
    + apply Nat.eqb_eq in E.
      destruct (IH (batches ++ [current ++ [write_item r]]) []) as (full & cur' & Hf & Hall & Hc & Hcat);
        [simpl; lia|].
      exists ((current ++ [write_item r]) :: full), cur'.
      rewrite Hf, <- app_assoc. repeat split; auto.
      simpl. rewrite <- !app_assoc. simpl in Hcat. by rewrite Hcat.
    + apply Nat.eqb_neq in E. rewrite length_app in E. simpl in E.
      destruct (IH batches (current ++ [write_item r])) as (full & cur' & Hf & Hall & Hc & Hcat);
        [rewrite length_app; simpl; lia|].
      exists full, cur'. repeat split; auto.
      by rewrite Hcat, <- app_assoc.
Qed.

(** The batches are the full ones followed by the remainder, when there is one. *)
Lemma make_batches_shape (rows : list row) :
  exists full current,
    make_batches rows = full ++ (if negb (length current =? 0) then [current] else []) /\
    Forall (fun b => length b = 25) full /\
    length current < 25 /\
    concat full ++ current = map write_item rows.
Proof.
  destruct (foldl_push_row rows [] []) as (full & cur & Hf & Hall & Hc & Hcat); [simpl; lia|].
  exists full, cur. unfold make_batches. rewrite Hf. simpl.
  repeat split; auto.
  destruct (length cur =? 0); simpl; by rewrite ?app_nil_r.
Qed.

Lemma concat_length_25 (full : list batch) :
  Forall (fun b => length b = 25) full -> length (concat full) = 25 * length full.
Proof.
  induction 1 as [|b full Hb _ IH]; simpl; [lia|]. rewrite length_app. lia.
Qed.

Lemma concat_make_batches (rows : list row) :
  concat (make_batches rows) = map write_item rows.
Proof.
  destruct (make_batches_shape rows) as (full & cur & -> & _ & _ & Hcat).
  rewrite concat_app, <- Hcat. f_equal.
  destruct cur; simpl; by rewrite ?app_nil_r.
Qed.

Lemma make_batches_length (rows : list row) :
  length (make_batches rows) = ceil_div (length rows) 25.
Proof.
  destruct (make_batches_shape rows) as (full & cur & -> & Hall & Hc & Hcat).
  apply (f_equal length) in Hcat.
  rewrite length_app, length_map, (concat_length_25 _ Hall) in Hcat.
  unfold ceil_div. rewrite <- Hcat, length_app.
  unfold batch in *.
  destruct cur as [|x cur]; cbn [length Nat.eqb negb] in *.
  - apply Nat.div_unique with 24; lia.
  - apply Nat.div_unique with (length cur); lia.
Qed.

Lemma make_batches_sizes (rows : list row) (i : nat) (b : batch) :
  make_batches rows !! i = Some b ->
  1 <= length b <= 25 /\ (S i < length (make_batches rows) -> length b = 25).
Proof.
  destruct (make_batches_shape rows) as (full & cur & -> & Hall & Hc & _).
  intros Hi. rewrite length_app. unfold batch in *.
  destruct (decide (i < length full)) as [Hlt|Hge].
  - rewrite lookup_app_l in Hi by done.
    rewrite Forall_lookup in Hall. specialize (Hall _ _ Hi). cbv beta in Hall. lia.
  - rewrite lookup_app_r in Hi by lia.
    destruct cur as [|x cur]; cbn [length Nat.eqb negb] in *; [done|].
    destruct (i - length full) eqn:E; cbn in Hi; [|done].
    injection Hi as <-. cbn [length]. lia.
Qed.

Lemma map_fmap {A B} (f : A -> B) (l : list A) : map f l = f <$> l.
Proof. reflexivity. Qed.

Lemma elem_of_concat {A} (x : A) (ls : list (list A)) :
  x ∈ concat ls <-> exists l, l ∈ ls /\ x ∈ l.
Proof.
  rewrite list_elem_of_In, in_concat.
  split; intros (l & H1 & H2); exists l; by rewrite ?list_elem_of_In in *.
Qed.

Lemma bulk_writes_app (tr1 tr2 : list event) :
  bulk_writes (tr1 ++ tr2) = bulk_writes tr1 ++ bulk_writes tr2.
Proof. apply omap_app. Qed.

Lemma bulk_writes_batch_calls (w : world) (batches : list batch) :
  bulk_writes (batch_calls w batches) = map (batch_params w) batches.
Proof. induction batches as [|b bs IH]; simpl; [done|]. by rewrite <- IH. Qed.

(** ** The loop of bulk writes *)


(** The first call answered with an error ends the loop: the batches before
    it and the failing one have been sent, once each, and nothing after. *)
Lemma write_batches_rejected (w : world) (batches : list batch) :
  forall st k b err,
    batches !! k = Some b ->
    (forall i bi, i < k -> batches !! i = Some bi ->
       batchWrite_answer w (trace st ++ batch_calls w (take i batches)) (batch_params w bi) = None) ->
    batchWrite_answer w (trace st ++ batch_calls w (take k batches)) (batch_params w b) = Some err ->
    write_batches w batches st = (Rejected err, after st (batch_calls w (take (S k) batches))).
Proof.
  induction batches as [|b0 bs IH]; intros st k b err Hk Hok Herr; [done|].
  cbn [write_batches]. unfold bind, ddb_batchWrite, bind, history, emit. cbn.
  destruct k as [|k].
  - injection Hk as ->. cbn in Herr. rewrite app_nil_r in Herr. rewrite Herr.
    cbn. by rewrite take_0.
  - pose proof (Hok 0 b0 ltac:(lia) eq_refl) as H0. cbn in H0. rewrite app_nil_r in H0.
    rewrite H0. cbn.
    rewrite (IH _ k b err Hk).
    + unfold after. cbn. by rewrite <- app_assoc.
    + intros i bi Hi Hbi. cbn. rewrite <- app_assoc. apply (Hok (S i) bi); [lia|done].
    + cbn. rewrite <- app_assoc. apply Herr.
Qed.

Lemma writeToDynamoDB_unfold (w : world) (rows : list row) (st : state) :
  writeToDynamoDB w rows st =
  write_batches w (make_batches rows) (after st [Enter fn_writeToDynamoDB]).
Proof. reflexivity. Qed.

Lemma after_after (st : state) (evs1 evs2 : list event) :
  after (after st evs1) evs2 = after st (evs1 ++ evs2).
Proof. unfold after. cbn. by rewrite <- app_assoc. Qed.

Lemma items_of_write_items (rows : list row) :
  map (fun wr => Item (PutRequest wr)) (map write_item rows) = rows.
Proof. induction rows as [|r rows IH]; simpl; [done|]. by rewrite IH. Qed.

(** ** The Index Writer *)

Lemma items_of_batch_params (w : world) (batches : list batch) :
  concat (map (fun p => concat (RequestItems p).*2) (map (batch_params w) batches))
  = concat batches.
Proof.
  induction batches as [|b bs IH]; [done|].
  cbn [map concat batch_params RequestItems fmap list_fmap snd].
  by rewrite app_nil_r, IH.
Qed.



(** C5: when the call for the batch at position [k] (counting from 0) is the
    first to fail, [writeToDynamoDB] rejects with that error; the calls made
    are those for the batches at positions 0 to [k], once each and in order:
    the earlier ones stay as sent, the failed one is not repeated, and no
    later batch is sent. *)
Theorem writeToDynamoDB_failed_batch
    (w : world) (rows : list row) (st : state) (k : nat) (b : batch) (err : error) :
  make_batches rows !! k = Some b ->
  (forall i bi, i < k -> make_batches rows !! i = Some bi ->
     batchWrite_answer w
       (trace st ++ Enter fn_writeToDynamoDB :: batch_calls w (take i (make_batches rows)))
       (batch_params w bi) = None) ->
  batchWrite_answer w
    (trace st ++ Enter fn_writeToDynamoDB :: batch_calls w (take k (make_batches rows)))
    (batch_params w b) = Some err ->
  writeToDynamoDB w rows st =
    (Rejected err,
     after st (Enter fn_writeToDynamoDB :: batch_calls w (take (S k) (make_batches rows)))) /\
  bulk_writes (trace (writeToDynamoDB w rows st).2) =
    bulk_writes (trace st) ++ map (batch_params w) (take k (make_batches rows))
      ++ [batch_params w b].
Proof.
  intros Hk Hok Herr.
  assert (writeToDynamoDB w rows st =
    (Rejected err,
     after st (Enter fn_writeToDynamoDB :: batch_calls w (take (S k) (make_batches rows)))))
    as Hrun.
  { rewrite writeToDynamoDB_unfold, (write_batches_rejected _ _ _ k b err Hk).
    - by rewrite after_after.
    - intros i bi Hi Hbi. cbn. rewrite <- app_assoc. by apply Hok.
    - cbn. rewrite <- app_assoc. apply Herr. }
  split; [done|].
  rewrite Hrun. cbn [snd after trace].
  rewrite bulk_writes_app. f_equal.
  change (Enter fn_writeToDynamoDB :: batch_calls w (take (S k) (make_batches rows)))
    with ([Enter fn_writeToDynamoDB] ++ batch_calls w (take (S k) (make_batches rows))).
  rewrite bulk_writes_app, bulk_writes_batch_calls, (take_S_r _ _ _ Hk), map_app.
  done.
Qed.

(** C8: the write request made for a row holds the row itself as its [Item]:
    the item at each position of the batches is the row at that position,
    unchanged; every item of every batch is such a request for one of the
    rows; and a batch goes into its call as it is. *)
Theorem write_items_verbatim (w : world) (rows : list row) :
  (forall i r, rows !! i = Some r ->
     concat (make_batches rows) !! i = Some {| PutRequest := {| Item := r |} |}) /\
  (forall b wr, b ∈ make_batches rows -> wr ∈ b ->
     exists r, r ∈ rows /\ wr = {| PutRequest := {| Item := r |} |}) /\
  (forall b, exists table, RequestItems (batch_params w b) = [(table, b)]).
Proof.
  split; [|split].
  - intros i r Hi. rewrite concat_make_batches, map_fmap, list_lookup_fmap, Hi. done.
  - intros b wr Hb Hwr.
    assert (wr ∈ concat (make_batches rows)) as Hin by (apply elem_of_concat; eauto).
    rewrite concat_make_batches, map_fmap in Hin.
    apply list_elem_of_fmap in Hin as (r & -> & Hr). eauto.
  - intros b. eexists. reflexivity.
Qed.

(** C9: batching keeps the order: the batches, one after the other, are the
    rows in their order, each in its write request. *)
Theorem batches_preserve_order (rows : list row) :
  concat (make_batches rows) = map write_item rows /\
  map (fun wr => Item (PutRequest wr)) (concat (make_batches rows)) = rows.
Proof.
  split; [apply concat_make_batches|].
  by rewrite concat_make_batches, items_of_write_items.
Qed.

(** ** The runs of the three steps and of [main] *)

(** The four ways [fetchAllRows] can go. *)
Lemma fetchAllRows_run (w : world) (st : state) :
  let opts := connection_options_of (read_env (process_env w)) in
  fetchAllRows w st =
  match createConnection_answer w opts with
  | Some err =>
      (Rejected err,
       after st [Enter fn_fetchAllRows; SfCreateConnection opts; PromiseReject err])
  | None =>
      match connect_answer w opts with
      | Some err =>
          (Rejected err,
           after st [Enter fn_fetchAllRows; SfCreateConnection opts; SfConnect;
                     PromiseReject err])
      | None =>
          match execute_answer w opts query_text with
          | inl err =>
              (Rejected err,
               after st [Enter fn_fetchAllRows; SfCreateConnection opts; SfConnect;
                         SfExecute query_text; SfDestroy; PromiseReject err])
          | inr rows =>
              (Fulfilled rows,
               after st [Enter fn_fetchAllRows; SfCreateConnection opts; SfConnect;
                         SfExecute query_text; SfDestroy; PromiseResolve rows])
          end
      end
  end.
Proof.
  intros opts. unfold fetchAllRows, bind, emit, throw, ret, after. fold opts.
  cbn -[query_text].
  destruct (createConnection_answer w opts) as [err|]; cbn -[query_text].
  { by rewrite <- !app_assoc. }
  destruct (connect_answer w opts) as [err|]; cbn -[query_text].
  - by rewrite <- !app_assoc.
  - destruct (execute_answer w opts query_text) as [err|rows]; cbn -[query_text];
      by rewrite <- !app_assoc.
Qed.

Lemma dumpToS3_run (w : world) (rows : list row) (key : jsstring) (st : state) :
  let params :=
    {| Bucket := S3_BUCKET (read_env (process_env w)); Key := key;
       Body := JSON_stringify rows |} in
  dumpToS3 w rows key st =
  (match putObject_answer w (trace st ++ [Enter fn_dumpToS3]) params with
   | Some err => Rejected err
   | None => Fulfilled tt
   end,
   after st [Enter fn_dumpToS3; S3PutObject params]).
Proof.
  intros params. unfold dumpToS3, s3_putObject, bind, emit, history, throw, ret, after.
  fold params. cbn.
  destruct (putObject_answer w (trace st ++ [Enter fn_dumpToS3]) params);
    cbn; by rewrite <- !app_assoc.
Qed.

(** Whatever the answers, the loop sends the calls of the first batches and
    nothing else. *)
Lemma write_batches_events (w : world) (batches : list batch) :
  forall st, exists n,
    (write_batches w batches st).2 = after st (batch_calls w (take n batches)).
Proof.
  induction batches as [|b bs IH]; intros st.
  - exists 0. unfold after. cbn. rewrite app_nil_r. by destruct st.
  - cbn [write_batches]. unfold bind, ddb_batchWrite, bind, history, emit. cbn.
    destruct (batchWrite_answer w (trace st) (batch_params w b)) as [err|]; cbn.
    + exists 1. by destruct bs.
    + destruct (IH {| trace := trace st ++ [DdbBatchWrite (batch_params w b)];
                      exitCode := exitCode st |}) as [n Hn].
      exists (S n).
      destruct (write_batches w bs _) as [[u|err] st'] eqn:E; cbn in *;
        rewrite Hn; unfold after; cbn; by rewrite <- app_assoc.
Qed.

Lemma writeToDynamoDB_events (w : world) (rows : list row) (st : state) :
  exists n,
    (writeToDynamoDB w rows st).2 =
    after st (Enter fn_writeToDynamoDB :: batch_calls w (take n (make_batches rows))).
Proof.
  rewrite writeToDynamoDB_unfold.
  destruct (write_batches_events w (make_batches rows) (after st [Enter fn_writeToDynamoDB]))
    as [n Hn].
  exists n. by rewrite Hn, after_after.
Qed.

(** [main] runs the steps in order and stops at the first one that rejects:
    the error is logged and the exit code set, and nothing else is done. *)
Lemma main_run (w : world) (st : state) :
  main w st =
  match fetchAllRows w st with
  | (Rejected err, st1) => (Fulfilled tt, failed st1 err)
  | (Fulfilled rows, st1) =>
      match dumpToS3 w rows (archive_key w) st1 with
      | (Rejected err, st2) => (Fulfilled tt, failed st2 err)
      | (Fulfilled _, st2) =>
          match writeToDynamoDB w rows st2 with
          | (Rejected err, st3) => (Fulfilled tt, failed st3 err)
          | (Fulfilled _, st3) => (Fulfilled tt, after st3 [ConsoleLog (success_message rows)])
          end
      end
  end.
Proof.
  unfold main, try_catch, bind at 1.
  destruct (fetchAllRows w st) as [[rows|err] st1]; [|done].
  unfold bind at 1.
  destruct (dumpToS3 w rows (archive_key w) st1) as [[u|err] st2]; [|done].
  unfold bind at 1.
  destruct (writeToDynamoDB w rows st2) as [[u'|err] st3]; done.
Qed.

Lemma object_writes_app (tr1 tr2 : list event) :
  object_writes (tr1 ++ tr2) = object_writes tr1 ++ object_writes tr2.
Proof. apply omap_app. Qed.

Lemma object_writes_batch_calls (w : world) (batches : list batch) :
  object_writes (batch_calls w batches) = [].
Proof. induction batches; simpl; done. Qed.

Lemma batch_calls_no_log (w : world) (batches : list batch) :
  Forall (fun e => is_success_log e = false) (batch_calls w batches).
Proof. induction batches; simpl; constructor; done. Qed.

Ltac no_success_log :=
  repeat first [ apply Forall_app_2 | apply Forall_cons_2 | apply Forall_nil_2
               | apply batch_calls_no_log | reflexivity ].

(** ** Failures *)

(** C3: when [fetchAllRows] rejects, [main] enters neither [dumpToS3] nor
    [writeToDynamoDB], writes nothing to either store, logs no success line,
    and leaves the exit code 1. *)
Theorem main_source_failure (w : world) (err : error) (st1 : state) :
  fetchAllRows w initial_state = (Rejected err, st1) ->
  main w initial_state = (Fulfilled tt, failed st1 err) /\
  (Enter fn_dumpToS3 ∉ trace (final_state w)) /\
  (Enter fn_writeToDynamoDB ∉ trace (final_state w)) /\
  object_writes (trace (final_state w)) = [] /\
  bulk_writes (trace (final_state w)) = [] /\
  Forall (fun e => is_success_log e = false) (trace (final_state w)) /\
  exit_status (final_state w) = 1%Z.
Proof.
  intros Hfetch. unfold final_state. rewrite main_run, Hfetch. split; [done|].
  rewrite fetchAllRows_run in Hfetch. cbv zeta in Hfetch.
  destruct (createConnection_answer w _) as [e|].
  { injection Hfetch as -> <-. cbn -[query_text].
    repeat split; [trace_membership | trace_membership | no_success_log]. }
  destruct (connect_answer w _) as [e|].
  - injection Hfetch as -> <-. cbn -[query_text].
    repeat split; [trace_membership | trace_membership | no_success_log].
  - destruct (execute_answer w _ _) as [e|rows]; [|done].
    injection Hfetch as -> <-. cbn -[query_text].
    repeat split; [trace_membership | trace_membership | no_success_log].
Qed.

(** C4: when the rows were fetched and [dumpToS3] rejects, [main] does not
    enter [writeToDynamoDB], makes no bulk-write call, logs no success line
    and leaves the exit code 1.  Wherever the first rejection happens, in
    [fetchAllRows], in [dumpToS3] or in [writeToDynamoDB], [main] ends in the
    state of that rejection with the error logged and the exit code set:
    no later step runs. *)
Theorem main_archive_failure
    (w : world) (rows : list row) (st1 st2 : state) (err : error) :
  fetchAllRows w initial_state = (Fulfilled rows, st1) ->
  dumpToS3 w rows (archive_key w) st1 = (Rejected err, st2) ->
  (main w initial_state = (Fulfilled tt, failed st2 err) /\
   (Enter fn_writeToDynamoDB ∉ trace (final_state w)) /\
   bulk_writes (trace (final_state w)) = [] /\
   Forall (fun e => is_success_log e = false) (trace (final_state w)) /\
   exit_status (final_state w) = 1%Z) /\
  (forall (w' : world) (err' : error) (st1' : state),
     fetchAllRows w' initial_state = (Rejected err', st1') ->
     main w' initial_state = (Fulfilled tt, failed st1' err')) /\
  (forall (w' : world) (rows' : list row) (st1' st2' st3' : state) (err' : error),
     fetchAllRows w' initial_state = (Fulfilled rows', st1') ->
     dumpToS3 w' rows' (archive_key w') st1' = (Fulfilled tt, st2') ->
     writeToDynamoDB w' rows' st2' = (Rejected err', st3') ->
     main w' initial_state = (Fulfilled tt, failed st3' err') /\
     Forall (fun e => is_success_log e = false) (trace (failed st3' err')) /\
     exit_status (failed st3' err') = 1%Z).
Proof.
  intros Hfetch Hdump. split; [|split].
  - unfold final_state. rewrite main_run, Hfetch, Hdump. split; [done|].
    rewrite fetchAllRows_run in Hfetch. cbv zeta in Hfetch.
    destruct (createConnection_answer w _) as [e|]; [done|].
    destruct (connect_answer w _) as [e|]; [done|].
    destruct (execute_answer w _ _) as [e|rows0]; [done|].
    injection Hfetch as -> <-.
    rewrite dumpToS3_run in Hdump. cbv zeta in Hdump.
    injection Hdump as _ <-. cbn -[query_text archive_key JSON_stringify].
    repeat split; [trace_membership | no_success_log].
  - intros w' err' st1' H. by rewrite main_run, H.
  - intros w' rows' st1' st2' st3' err' Hf Hd Hw.
    rewrite main_run, Hf, Hd, Hw. split; [done|]. split; [|done].
    destruct (writeToDynamoDB_events w' rows' st2') as [n Hn].
    rewrite Hw in Hn. cbn [snd] in Hn. subst st3'.
    rewrite fetchAllRows_run in Hf. cbv zeta in Hf.
    destruct (createConnection_answer w' _) as [e|]; [done|].
    destruct (connect_answer w' _) as [e|]; [done|].
    destruct (execute_answer w' _ _) as [e|rows0]; [done|].
    injection Hf as -> <-.
    rewrite dumpToS3_run in Hd. cbv zeta in Hd.
    injection Hd as _ <-.
    cbn -[query_text archive_key JSON_stringify].
    no_success_log.
Qed.

(** ** The Source Reader *)

(** C6, as amended: when the connection was made, whether the query then
    fails or succeeds, [connection.destroy] is called before the promise is
    settled; when the connection cannot be created or connecting fails, the
    promise is rejected and [connection.destroy] is not called. *)
Theorem fetchAllRows_release (w : world) (st : state) :
  exists evs,
    snd (fetchAllRows w st) = after st evs /\
    match createConnection_answer w (connection_options_of (read_env (process_env w))) with
    | Some err => fst (fetchAllRows w st) = Rejected err /\ SfDestroy ∉ evs
    | None =>
        match connect_answer w (connection_options_of (read_env (process_env w))) with
        | None => released_before_settled evs /\ SfDestroy ∈ evs
        | Some err => fst (fetchAllRows w st) = Rejected err /\ SfDestroy ∉ evs
        end
    end.
Proof.
  rewrite fetchAllRows_run. cbv zeta.
  destruct (createConnection_answer w _) as [err|].
  { eexists. split; [reflexivity|]. split; [done|]. trace_membership. }
  destruct (connect_answer w _) as [err|].
  - eexists. split; [reflexivity|]. split; [done|]. trace_membership.
  - assert (forall e : event, is_settlement e = true ->
      released_before_settled
        [Enter fn_fetchAllRows;
         SfCreateConnection (connection_options_of (read_env (process_env w)));
         SfConnect; SfExecute query_text; SfDestroy; e]) as Hrel.
    { intros e He pre e' post Heq He'.
      do 5 (destruct pre as [|? pre];
            [injection Heq as <- _; discriminate|injection Heq as <- Heq]).
      trace_membership. }
    destruct (execute_answer w _ _) as [err|rows];
      (eexists; split; [reflexivity|]; split; [by apply Hrel|trace_membership]).
Qed.

(** ** The archive key *)

(** C10: the archive key is the configured prefix followed by
    [initial_load.json]; the default prefix stands in only when
    [S3_KEY_PREFIX] is absent, so an empty prefix gives the key
    [initial_load.json]; and this key is the one [main] writes to. *)
Theorem archive_key_prefix (w : world) :
  archive_key w =
    match process_env w !! "S3_KEY_PREFIX"%string with
    | Some p => p ++ lit "initial_load.json"
    | None => lit "click_performance/" ++ lit "initial_load.json"
    end /\
  (process_env w !! "S3_KEY_PREFIX"%string = Some ([] : jsstring) ->
   archive_key w = lit "initial_load.json") /\
  (forall rows st1,
     fetchAllRows w initial_state = (Fulfilled rows, st1) ->
     Key <$> object_writes (trace (final_state w)) = [archive_key w]).
Proof.
  split; [|split].
  - unfold archive_key, read_env. cbn [S3_KEY_PREFIX].
    by destruct (process_env w !! "S3_KEY_PREFIX"%string).
  - intros H. unfold archive_key, read_env. cbn [S3_KEY_PREFIX]. by rewrite H.
  - intros rows st1 Hfetch. unfold final_state. rewrite main_run, Hfetch.
    rewrite fetchAllRows_run in Hfetch. cbv zeta in Hfetch.
    destruct (createConnection_answer w _) as [e|]; [done|].
    destruct (connect_answer w _) as [e|]; [done|].
    destruct (execute_answer w _ _) as [e|rows0]; [done|].
    injection Hfetch as -> <-.
    rewrite dumpToS3_run. cbv zeta.
    destruct (putObject_answer w _ _) as [e|]; [done|].
    match goal with |- context [writeToDynamoDB w rows ?st] =>
      destruct (writeToDynamoDB_events w rows st) as [n Hn];
      destruct (writeToDynamoDB w rows st) as [[u|e] st3]
    end; cbn [snd] in Hn; subst st3;
      cbn -[query_text archive_key JSON_stringify];
      match goal with |- context [omap ?f ?l] =>
        change (omap f l) with (@object_writes finite l) end;
      rewrite object_writes_app, object_writes_batch_calls; done.
Qed.

(** ** JSON strings: reading back what [QuoteJSONString] writes *)

Lemma hex_value_digit (d : N) : (d < 16)%N -> hex_value (hex_digit d) = Some d.
Proof.
  intros Hd. unfold hex_value, hex_digit.
  destruct (N.ltb_spec d 10).
  - replace ((48 <=? 48 + d) && (48 + d <=? 57))%N with true; [f_equal; lia|].
    symmetry. apply andb_true_intro. split; apply N.leb_le; lia.
  - replace ((48 <=? 87 + d) && (87 + d <=? 57))%N with false.
    2:{ symmetry. apply andb_false_intro2. apply N.leb_gt. lia. }
    replace ((97 <=? 87 + d) && (87 + d <=? 102))%N with true; [f_equal; lia|].
    symmetry. apply andb_true_intro. split; apply N.leb_le; lia.
Qed.

Lemma hex4_value_UnicodeEscape (c : N) :
  (c < 65536)%N ->
  hex4_value (hex_digit (c / 4096 mod 16)) (hex_digit (c / 256 mod 16))
    (hex_digit (c / 16 mod 16)) (hex_digit (c mod 16)) = Some c.
Proof.
  intros Hc. unfold hex4_value.
  rewrite !hex_value_digit by (apply N.mod_upper_bound; lia).
  f_equal.
  pose proof (N.div_mod c 16 ltac:(lia)).
  pose proof (N.div_mod (c / 16) 16 ltac:(lia)).
  pose proof (N.div_mod (c / 16 / 16) 16 ltac:(lia)).
  pose proof (N.mod_upper_bound c 16 ltac:(lia)).
  pose proof (N.mod_upper_bound (c / 16) 16 ltac:(lia)).
  pose proof (N.mod_upper_bound (c / 16 / 16) 16 ltac:(lia)).
  assert (c / 16 / 16 / 16 < 16)%N.
  { rewrite !N.Div0.div_div. apply N.Div0.div_lt_upper_bound. lia. }
  replace (c / 4096)%N with (c / 16 / 16 / 16)%N by (by rewrite !N.Div0.div_div).
  replace (c / 256)%N with (c / 16 / 16)%N by (by rewrite !N.Div0.div_div).
  rewrite (N.mod_small (c / 16 / 16 / 16) 16) by done.
  lia.
Qed.

Lemma parse_string_body_raw (c : N) (t : jsstring) :
  (32 <= c)%N -> c <> 34%N -> c <> 92%N ->
  parse_string_body (c :: t) = prepend c (parse_string_body t).
Proof.
  intros H32 H34 H92. cbn [parse_string_body].
  destruct (N.eqb_spec c 34); [done|].
  destruct (N.eqb_spec c 92); [done|].
  destruct (N.ltb_spec c 32); [lia|]. done.
Qed.

Lemma parse_string_body_unicode (h1 h2 h3 h4 : N) (t : jsstring) :
  parse_string_body (92 :: 117 :: h1 :: h2 :: h3 :: h4 :: t)%N =
  match hex4_value h1 h2 h3 h4 with
  | Some u => prepend u (parse_string_body t)
  | None => None
  end.
Proof. reflexivity. Qed.

Lemma parse_string_body_UnicodeEscape (c : N) (t : jsstring) :
  (c < 65536)%N ->
  parse_string_body (UnicodeEscape c ++ t) = prepend c (parse_string_body t).
Proof.
  intros Hc. unfold UnicodeEscape. cbn [app].
  by rewrite parse_string_body_unicode, hex4_value_UnicodeEscape.
Qed.

Lemma surrogate_bounds (c : N) :
  is_leading_surrogate c || is_trailing_surrogate c = true ->
  (32 <= c < 65536)%N /\ c <> 34%N /\ c <> 92%N.
Proof.
  unfold is_leading_surrogate, is_trailing_surrogate.
  rewrite orb_true_iff, !andb_true_iff, !N.leb_le. lia.
Qed.

Lemma parse_string_body_quote_code_unit (c : N) (t : jsstring) :
  parse_string_body (quote_code_unit c ++ t) = prepend c (parse_string_body t).
Proof.
  unfold quote_code_unit.
  repeat match goal with
         | |- context [N.eqb c ?k] => destruct (N.eqb_spec c k); [by subst|]
         end.
  destruct ((c <? 32)%N || is_leading_surrogate c || is_trailing_surrogate c) eqn:E.
  - apply parse_string_body_UnicodeEscape.
    rewrite <- orb_assoc in E. apply orb_true_iff in E as [E|E].
    + apply N.ltb_lt in E. lia.
    + apply surrogate_bounds in E. lia.
  - apply orb_false_iff in E as [E _]. apply orb_false_iff in E as [E _].
    apply N.ltb_ge in E. by apply parse_string_body_raw.
Qed.

Lemma parse_string_body_quote_code_units (n : nat) :
  forall (s t : jsstring),
    length s <= n ->
    parse_string_body (quote_code_units s ++ t) =
    match parse_string_body t with
    | Some (str, rest) => Some (s ++ str, rest)
    | None => None
    end.
Proof.
  induction n as [|n IH]; intros s t Hlen.
  - destruct s; [|simpl in Hlen; lia]. simpl. by destruct (parse_string_body t) as [[? ?]|].
  - destruct s as [|c s]; [simpl; by destruct (parse_string_body t) as [[? ?]|]|].
    simpl in Hlen. cbn [quote_code_units].
    destruct (is_leading_surrogate c) eqn:Elead.
    + assert ((32 <= c < 65536)%N /\ c <> 34%N /\ c <> 92%N) as (Hc & H34 & H92)
        by (apply surrogate_bounds; by rewrite Elead).
      destruct s as [|d s].
      * rewrite parse_string_body_UnicodeEscape by lia.
        simpl. by destruct (parse_string_body t) as [[? ?]|].
      * destruct (is_trailing_surrogate d) eqn:Etrail.
        -- assert ((32 <= d < 65536)%N /\ d <> 34%N /\ d <> 92%N) as (Hd & H34' & H92')
             by (apply surrogate_bounds; rewrite Etrail; apply orb_true_r).
           cbn [app].
           rewrite parse_string_body_raw, parse_string_body_raw by lia.
           rewrite IH by (simpl in Hlen; lia).
           by destruct (parse_string_body t) as [[? ?]|].
        -- rewrite <- app_assoc, parse_string_body_UnicodeEscape by lia.
           rewrite IH by lia.
           by destruct (parse_string_body t) as [[? ?]|].
    + rewrite <- app_assoc, parse_string_body_quote_code_unit.
      rewrite IH by lia.
      by destruct (parse_string_body t) as [[? ?]|].
Qed.

(** A quoted string is read back as the string it was made from. *)
Lemma parse_string_body_QuoteJSONString (s rest : jsstring) :
  exists body,
    QuoteJSONString s ++ rest = 34%N :: body /\
    parse_string_body body = Some (s, rest).
Proof.
  exists (quote_code_units s ++ 34%N :: rest). split.
  - unfold QuoteJSONString. cbn [app]. by rewrite <- app_assoc.
  - rewrite (parse_string_body_quote_code_units (length s)) by done.
    cbn [parse_string_body]. by rewrite N.eqb_refl, app_nil_r.
Qed.

(** ** JSON numbers: a token is read back whole *)

Lemma number_step_char (st st' : number_state) (c : N) :
  number_step st c = Some st' -> is_number_char c = true.
Proof.
  unfold is_number_char, is_sign, is_exponent_mark.
  destruct st; cbn [number_step]; unfold is_sign, is_exponent_mark;
    repeat match goal with
           | |- context [N.eqb c ?k] => destruct (N.eqb_spec c k); [subst; intros; by vm_compute|]
           | |- context [is_digit c] => destruct (is_digit c); [done|]
           end; cbn; done.
Qed.

Lemma number_accepts_chars (s : jsstring) :
  forall st, number_accepts st s = true -> Forall (fun c => is_number_char c = true) s.
Proof.
  induction s as [|c s IH]; intros st H; [constructor|].
  cbn [number_accepts] in H.
  destruct (number_step st c) as [st'|] eqn:E; [|done].
  constructor; [by eapply number_step_char|by eapply IH].
Qed.

Lemma is_JSONNumber_head (tok : jsstring) :
  is_JSONNumber tok = true ->
  exists c t, tok = c :: t /\ (c = 45%N \/ (48 <= c <= 57)%N).
Proof.
  unfold is_JSONNumber. destruct tok as [|c t]; [done|].
  intros H. exists c, t. split; [done|].
  cbn [number_accepts number_step] in H.
  destruct (N.eqb_spec c 45); [by left|].
  destruct (N.eqb_spec c 48); [right; lia|].
  unfold is_digit in H.
  destruct ((48 <=? c) && (c <=? 57))%N eqn:E; [|done].
  apply andb_true_iff in E as [E1 E2]. apply N.leb_le in E1, E2. right. lia.
Qed.

Lemma span_number_token (tok : jsstring) (d : N) (r : jsstring) :
  Forall (fun c => is_number_char c = true) tok ->
  is_number_char d = false ->
  span_number (tok ++ d :: r) = (tok, d :: r).
Proof.
  intros Htok Hd. induction Htok as [|c tok Hc _ IH].
  - cbn [app span_number]. by rewrite Hd.
  - cbn [app span_number]. by rewrite Hc, IH.
Qed.

(** ** Reading back a scalar *)

Lemma parse_value_S (fuel : nat) (s : jsstring) :
  parse_value (S fuel) s = value_step (parse_elements fuel) (parse_members fuel) s.
Proof. reflexivity. Qed.

Lemma parse_elements_S (fuel : nat) (s : jsstring) (acc : list json) :
  parse_elements (S fuel) s acc =
  elements_step (parse_value fuel) (parse_elements fuel) s acc.
Proof. reflexivity. Qed.

Lemma parse_members_S (fuel : nat) (s : jsstring) (acc : list (jsstring * json)) :
  parse_members (S fuel) s acc =
  members_step (parse_value fuel) (parse_members fuel) s acc.
Proof. reflexivity. Qed.

Lemma parse_value_string (fuel : nat) (s rest : jsstring) :
  parse_value (S fuel) (QuoteJSONString s ++ rest) = Some (JString s, rest).
Proof.
  destruct (parse_string_body_QuoteJSONString s rest) as (body & -> & Hbody).
  cbn. by rewrite Hbody.
Qed.

Lemma parse_value_number (fuel : nat) (tok : jsstring) (d : N) (r : jsstring) :
  is_JSONNumber tok = true ->
  is_number_char d = false ->
  parse_value (S fuel) (tok ++ d :: r) = Some (JNumber (JSONNumber_value tok), d :: r).
Proof.
  intros Htok Hd.
  pose proof (number_accepts_chars _ _ Htok) as Hchars.
  destruct (is_JSONNumber_head _ Htok) as (c & t & -> & Hc).
  pose proof (span_number_token _ _ r Hchars Hd) as Hspan.
  cbn [app] in *. rewrite parse_value_S; unfold value_step; cbn [skip_ws].
  assert (is_ws c = false) as ->.
  { unfold is_ws. repeat (apply orb_false_intro); apply N.eqb_neq; lia. }
  destruct (N.eqb_spec c 123); [lia|].
  destruct (N.eqb_spec c 91); [lia|].
  destruct (N.eqb_spec c 34); [lia|].
  assert ((c =? 45)%N || is_digit c = true) as ->.
  { unfold is_digit. destruct Hc as [->|Hc]; [done|].
    apply orb_true_intro. right. apply andb_true_intro. split; apply N.leb_le; lia. }
  by rewrite Hspan, Htok.
Qed.

Lemma parse_value_scalar (fuel : nat) (v : value) (d : N) (r : jsstring) :
  Number_toString_spec ->
  is_number_char d = false ->
  parse_value (S fuel) (SerializeJSONProperty v ++ d :: r) = Some (JSON_image v, d :: r).
Proof.
  intros [Hzero Hspec] Hd.
  destruct v as [|[|]|[| | | |x]|s]; cbn [SerializeJSONProperty JSON_image json_of_value];
    try reflexivity.
  - destruct (Hspec zero) as [Htok Hval]. rewrite Hzero in Htok, Hval.
    by rewrite parse_value_number, Hval.
  - destruct (Hspec x) as [Htok Hval].
    by rewrite parse_value_number, Hval.
  - apply parse_value_string.
Qed.

(** ** Reading back an object and an array of objects *)

Lemma CreateDataProperty_fresh (acc : list (jsstring * json)) (k : jsstring) (v : json) :
  k ∉ acc.*1 -> CreateDataProperty acc k v = acc ++ [(k, v)].
Proof.
  induction acc as [|[k' v'] acc IH]; intros Hk; [done|].
  cbn [CreateDataProperty]. cbn in Hk. rewrite not_elem_of_cons in Hk.
  destruct Hk as [Hne Hk].
  destruct (decide (k' = k)); [congruence|].
  cbn [app]. by rewrite IH.
Qed.

Lemma image_members_keys (r : row) : (image_members r).*1 = own_keys r.
Proof. unfold image_members, own_keys. induction r as [|[k v] r IH]; cbn; [done|]. by rewrite <- IH. Qed.

Lemma SerializeJSONMember_head (kv : jsstring * value) (rest : jsstring) :
  exists body,
    SerializeJSONMember kv ++ rest = 34%N :: body /\
    parse_string_body body = Some (kv.1, 58%N :: SerializeJSONProperty kv.2 ++ rest).
Proof.
  unfold SerializeJSONMember. change (lit ":") with [58%N].
  rewrite <- !app_assoc. apply parse_string_body_QuoteJSONString.
Qed.

Lemma parse_value_scalar_fuel (fuel : nat) (v : value) (d : N) (r : jsstring) :
  Number_toString_spec ->
  0 < fuel ->
  is_number_char d = false ->
  parse_value fuel (SerializeJSONProperty v ++ d :: r) = Some (JSON_image v, d :: r).
Proof.
  intros Hspec Hfuel Hd. destruct fuel as [|fuel]; [lia|]. by apply parse_value_scalar.
Qed.

Lemma join_cons (sep p q : jsstring) (parts : list jsstring) :
  join sep (p :: q :: parts) = p ++ sep ++ join sep (q :: parts).
Proof. reflexivity. Qed.

Lemma parse_members_text (r : row) :
  forall (kv : jsstring * value) (acc : list (jsstring * json)) (fuel : nat) (rest : jsstring),
    Number_toString_spec ->
    S (length r) < fuel ->
    NoDup (acc.*1 ++ own_keys (kv :: r)) ->
    parse_members fuel
      (join (lit ",") (map SerializeJSONMember (kv :: r)) ++ 125%N :: rest) acc =
    Some (JObject (acc ++ image_members (kv :: r)), rest).
Proof.
  induction r as [|kv' r IH]; intros kv acc fuel rest Hspec Hfuel Hdup.
  - destruct fuel as [|fuel]; [simpl in Hfuel; lia|].
    cbn [map join].
    destruct (SerializeJSONMember_head kv (125%N :: rest)) as (body & -> & Hbody).
    rewrite parse_members_S; unfold members_step; cbn [skip_ws]. change (is_ws 34) with false. cbn match.
    change (34 =? 34)%N with true. cbn match.
    rewrite Hbody. cbn [skip_ws]. change (is_ws 58) with false. cbn match.
    change (58 =? 58)%N with true. cbn match.
    rewrite parse_value_scalar_fuel by (done || (simpl in Hfuel; lia)).
    cbn [skip_ws]. change (is_ws 125) with false. cbn match.
    change (125 =? 44)%N with false. change (125 =? 125)%N with true. cbn match.
    rewrite CreateDataProperty_fresh; [done|].
    apply NoDup_app in Hdup as (_ & Hdisj & _).
    intros Hin. apply (Hdisj _ Hin). destruct kv. cbn. by left.
  - destruct fuel as [|fuel]; [simpl in Hfuel; lia|].
    cbn [map]. rewrite join_cons, <- !app_assoc.
    destruct (SerializeJSONMember_head kv
      (lit "," ++ join (lit ",") (SerializeJSONMember kv' :: map SerializeJSONMember r)
         ++ 125%N :: rest)) as (body & -> & Hbody).
    rewrite parse_members_S; unfold members_step; cbn [skip_ws]. change (is_ws 34) with false. cbn match.
    change (34 =? 34)%N with true. cbn match.
    rewrite Hbody. cbn [skip_ws]. change (is_ws 58) with false. cbn match.
    change (58 =? 58)%N with true. cbn match.
    change (lit ",") with [44%N]. cbn [app].
    rewrite parse_value_scalar_fuel by (done || (simpl in Hfuel; lia)).
    cbn [skip_ws]. change (is_ws 44) with false. cbn match.
    change (44 =? 44)%N with true. cbn match.
    assert (kv.1 ∉ acc.*1) as Hfresh.
    { apply NoDup_app in Hdup as (_ & Hdisj & _).
      intros Hin. apply (Hdisj _ Hin). destruct kv. cbn. by left. }
    rewrite CreateDataProperty_fresh by done.
    specialize (IH kv' (acc ++ [(kv.1, JSON_image kv.2)]) fuel rest Hspec).
    change (lit ",") with [44%N] in IH. cbn [map] in IH.
    rewrite IH.
    + cbn [image_members map]. by rewrite <- app_assoc.
    + simpl in Hfuel |- *. lia.
    + rewrite fmap_app. cbn [fmap list_fmap fst]. rewrite <- app_assoc.
      destruct kv. exact Hdup.
Qed.

Lemma parse_value_object (r : row) (fuel : nat) (rest : jsstring) :
  Number_toString_spec ->
  S (length r) < fuel ->
  wf_row r ->
  parse_value fuel (SerializeJSONObject r ++ rest) = Some (image_row r, rest).
Proof.
  intros Hspec Hfuel Hwf. destruct fuel as [|fuel]; [lia|].
  destruct r as [|kv r]; [reflexivity|].
  unfold SerializeJSONObject. change (lit "{") with [123%N]. change (lit "}") with [125%N].
  rewrite <- !app_assoc. cbn [app].
  pose proof (parse_members_text r kv [] fuel rest Hspec) as Hmembers.
  destruct (join (lit ",") (map SerializeJSONMember (kv :: r)) ++ 125%N :: rest)
    as [|d text] eqn:Etext.
  { exfalso. cbn [map] in Etext. destruct r.
    - cbn [map join] in Etext.
      destruct (SerializeJSONMember_head kv (125%N :: rest)) as (body & Hb & _).
      congruence.
    - cbn [map] in Etext. rewrite join_cons, <- !app_assoc in Etext.
      match type of Etext with SerializeJSONMember kv ++ ?t = _ =>
        destruct (SerializeJSONMember_head kv t) as (body & Hb & _) end.
      congruence. }
  assert (d = 34%N) as ->.
  { cbn [map] in Etext. destruct r.
    - cbn [map join] in Etext.
      destruct (SerializeJSONMember_head kv (125%N :: rest)) as (body & Hb & _).
      congruence.
    - cbn [map] in Etext. rewrite join_cons, <- !app_assoc in Etext.
      match type of Etext with SerializeJSONMember kv ++ ?t = _ =>
        destruct (SerializeJSONMember_head kv t) as (body & Hb & _) end.
      congruence. }
  rewrite parse_value_S; unfold value_step; cbn [skip_ws]. change (is_ws 123) with false. cbn match.
  change (123 =? 123)%N with true. cbn match.
  cbn [skip_ws]. change (is_ws 34) with false. cbn match.
  change (34 =? 125)%N with false. cbn match.
  rewrite Hmembers; [done| simpl in Hfuel |- *; lia | exact Hwf].
Qed.

Lemma SerializeJSONObject_head (r : row) (rest : jsstring) :
  exists text, SerializeJSONObject r ++ rest = 123%N :: text.
Proof. destruct r; eexists; reflexivity. Qed.

Lemma parse_elements_text (rows : list row) :
  forall (r : row) (acc : list json) (fuel : nat) (rest : jsstring),
    Number_toString_spec ->
    elements_fuel (r :: rows) <= fuel ->
    Forall wf_row (r :: rows) ->
    parse_elements fuel
      (join (lit ",") (map SerializeJSONObject (r :: rows)) ++ 93%N :: rest) acc =
    Some (JArray (acc ++ map image_row (r :: rows)), rest).
Proof.
  induction rows as [|r' rows IH]; intros r acc fuel rest Hspec Hfuel Hwf.
  - destruct fuel as [|fuel]; [simpl in Hfuel; lia|].
    apply Forall_cons_1 in Hwf as [Hr _].
    cbn [map join]. rewrite parse_elements_S. unfold elements_step.
    rewrite parse_value_object; [|done|cbn [elements_fuel] in Hfuel; lia|done].
    cbn [skip_ws]. change (is_ws 93) with false. cbn match.
    change (93 =? 44)%N with false. change (93 =? 93)%N with true. done.
  - destruct fuel as [|fuel]; [simpl in Hfuel; lia|].
    apply Forall_cons_1 in Hwf as [Hr Hwf].
    cbn [map]. rewrite join_cons, <- !app_assoc.
    rewrite parse_elements_S. unfold elements_step.
    rewrite parse_value_object; [|done|cbn [elements_fuel] in Hfuel; lia|done].
    change (lit ",") with [44%N]. cbn [app skip_ws].
    change (is_ws 44) with false. cbn match.
    change (44 =? 44)%N with true. cbn match.
    specialize (IH r' (acc ++ [image_row r]) fuel rest Hspec).
    change (lit ",") with [44%N] in IH. cbn [map] in IH.
    rewrite IH.
    + cbn [map]. by rewrite <- app_assoc.
    + cbn [elements_fuel] in Hfuel |- *. lia.
    + done.
Qed.

(** *** The text is long enough to be read with its length as fuel *)

Lemma join_length (sep : jsstring) (parts : list jsstring) :
  Forall (fun p => 1 <= length p) parts -> length parts <= length (join sep parts).
Proof.
  induction 1 as [|p parts Hp Hparts IH]; [done|]. cbv beta in Hp.
  destruct parts as [|q parts]; [cbn; lia|].
  rewrite join_cons, !length_app. cbn [length] in *. unfold jsstring in *. lia.
Qed.

Lemma join_length_part (sep p : jsstring) (parts : list jsstring) :
  length p + length (join sep parts) <= length (join sep (p :: parts)).
Proof.
  destruct parts as [|q parts]; [cbn; lia|].
  rewrite join_cons, !length_app. lia.
Qed.

Lemma SerializeJSONObject_length (r : row) : length r + 2 <= length (SerializeJSONObject r).
Proof.
  destruct r as [|kv r]; [vm_compute; lia|].
  unfold SerializeJSONObject. rewrite !length_app.
  change (length (lit "{")) with 1. change (length (lit "}")) with 1.
  assert (length (kv :: r) <= length (join (lit ",") (map SerializeJSONMember (kv :: r)))).
  { etransitivity; [|apply join_length].
    - by rewrite length_map.
    - apply Forall_forall. intros p Hp. apply list_elem_of_In, in_map_iff in Hp as (x & <- & _).
      unfold SerializeJSONMember, QuoteJSONString. rewrite !length_app. cbn. lia. }
  lia.
Qed.

Lemma elements_fuel_length (rows : list row) :
  elements_fuel rows <= S (length (join (lit ",") (map SerializeJSONObject rows))).
Proof.
  induction rows as [|r rows IH]; [cbn; lia|].
  cbn [elements_fuel map].
  pose proof (SerializeJSONObject_length r).
  pose proof (join_length_part (lit ",") (SerializeJSONObject r) (map SerializeJSONObject rows)).
  destruct rows as [|r' rows]; [cbn in *; lia|].
  cbn [map] in *. rewrite join_cons, !length_app in *. lia.
Qed.

(** [JSON.parse] of [JSON.stringify(rows)]: an array with one object per row,
    in order, each with the row's property names and the images of its values. *)
Lemma JSON_parse_stringify (rows : list row) :
  Number_toString_spec ->
  Forall wf_row rows ->
  JSON_parse (JSON_stringify rows) = Some (JArray (map image_row rows)).
Proof.
  intros Hspec Hwf. destruct rows as [|r rows]; [reflexivity|].
  unfold JSON_parse, JSON_stringify, SerializeJSONArray.
  change (lit "[") with [91%N]. change (lit "]") with [93%N].
  set (J := join (lit ",") (map SerializeJSONObject (r :: rows))).
  set (fuel := length ([91%N] ++ J ++ [93%N])).
  assert (elements_fuel (r :: rows) <= fuel) as Hfuel.
  { subst fuel. rewrite !length_app. cbn [length].
    pose proof (elements_fuel_length (r :: rows)) as Hlen. fold J in Hlen. lia. }
  pose proof (parse_elements_text rows r [] fuel [] Hspec Hfuel Hwf) as Hparse.
  fold J in Hparse.
  assert (exists text, J ++ [93%N] = 123%N :: text) as [text Etext].
  { subst J. cbn [map]. destruct rows as [|r' rows].
    - apply SerializeJSONObject_head.
    - cbn [map]. rewrite join_cons, <- !app_assoc. apply SerializeJSONObject_head. }
  clearbody fuel J. rewrite Etext in Hparse.
  cbn [app]. rewrite Etext.
  rewrite parse_value_S; unfold value_step; cbn [skip_ws]. change (is_ws 91) with false. cbn match.
  change (91 =? 123)%N with false. change (91 =? 91)%N with true. cbn match.
  cbn [skip_ws]. change (is_ws 123) with false. cbn match.
  change (123 =? 93)%N with false. cbn match.
  rewrite Hparse. done.
Qed.

Lemma get_map_values {V W : Type} (f : V -> W) (k : jsstring) (members : list (jsstring * V)) :
  get k (map (fun kv => (kv.1, f kv.2)) members) = f <$> get k members.
Proof.
  induction members as [|[k' v] members IH]; [done|].
  cbn [map get fst snd]. by destruct (decide (k' = k)).
Qed.

Lemma image_members_exact (r : row) :
  Forall (fun kv => is_exact_value kv.2 = true) r ->
  image_members r = map (fun kv => (kv.1, json_of_value kv.2)) r.
Proof.
  induction 1 as [|[k v] r Hv _ IH]; [done|].
  cbn [image_members map fst snd] in *. rewrite <- IH. f_equal. f_equal.
  by destruct v as [| |[| | | |x]|].
Qed.

(** ** The Archive Writer *)

(** C2, as amended: for rows whose numbers are all finite and none negative
    zero, [dumpToS3] makes one [putObject] call, under the given key, whose
    body parses as a JSON array with one object per row; the object at each
    position has the property names and the values of the row at that
    position; for no rows the body is [[]].  Numbers are written and read as
    ECMA-262 specifies ([Number_toString_spec]). *)
Theorem dumpToS3_archive (w : world) (rows : list row) (key : jsstring) (st : state) :
  Number_toString_spec ->
  Forall wf_row rows ->
  exact_rows rows ->
  exists params,
    snd (dumpToS3 w rows key st) = after st [Enter fn_dumpToS3; S3PutObject params] /\
    Key params = key /\
    archive_faithful rows (Body params) /\
    (rows = [] -> Body params = lit "[]").
Proof.
  intros Hspec Hwf Hfin. rewrite dumpToS3_run. cbv zeta.
  eexists. split; [reflexivity|]. split; [reflexivity|]. cbn [Body]. split.
  - exists (map image_row rows). split; [by apply JSON_parse_stringify|].
    split; [by rewrite length_map|].
    intros i r Hi. exists (image_members r). split.
    + by rewrite map_fmap, list_lookup_fmap, Hi.
    + split; [apply image_members_keys|].
      intros k. unfold exact_rows in Hfin. rewrite Forall_lookup in Hfin.
      rewrite (image_members_exact r (Hfin _ _ Hi)). apply get_map_values.
  - by intros ->.
Qed.

(** C7: two runs of [dumpToS3] on equal rows send the same body, whatever
    differs between the runs, and send it to the same key when the prefix
    setting is the same. *)
Theorem archive_deterministic
    (w1 w2 : world) (rows1 rows2 : list row) (st1 st2 : state) :
  rows1 = rows2 ->
  exists p1 p2,
    snd (dumpToS3 w1 rows1 (archive_key w1) st1)
      = after st1 [Enter fn_dumpToS3; S3PutObject p1] /\
    snd (dumpToS3 w2 rows2 (archive_key w2) st2)
      = after st2 [Enter fn_dumpToS3; S3PutObject p2] /\
    Body p1 = Body p2 /\
    (process_env w1 !! "S3_KEY_PREFIX"%string = process_env w2 !! "S3_KEY_PREFIX"%string ->
     Key p1 = Key p2).
Proof.
  intros ->. rewrite !dumpToS3_run. cbv zeta.
  eexists. eexists. split; [reflexivity|]. split; [reflexivity|].
  cbn [Body Key]. split; [done|]. intros Hprefix.
  unfold archive_key, read_env. cbn [S3_KEY_PREFIX]. by rewrite Hprefix.
Qed.


(** * Further properties *)

(** ** Which rows go into which batch *)

(** In a list of groups of [n] things each, the group at position [k] is the
    [n] things from position [n * k] on. *)
Lemma uniform_concat_lookup {A : Type} (n : nat) (groups : list (list A)) :
  forall (k : nat) (g rest : list A),
    Forall (fun g => length g = n) groups ->
    groups !! k = Some g ->
    take n (drop (n * k) (concat groups ++ rest)) = g.
Proof.
  induction groups as [|g0 groups IH]; intros k g rest Hall Hk; [done|].
  apply Forall_cons_1 in Hall as [Hg0 Hall].
  destruct k as [|k].
  - injection Hk as ->. rewrite Nat.mul_0_r, drop_0. cbn [concat].
    rewrite <- app_assoc. by apply take_app_length'.
  - cbn [concat]. rewrite <- app_assoc.
    replace (n * S k) with (length g0 + n * k) by lia.
    rewrite drop_app_add. by apply IH.
Qed.

Lemma make_batches_lookup_aux (rows : list row) (k : nat) :
  make_batches rows !! k =
  if 25 * k <? length rows
  then Some (take 25 (drop (25 * k) (map write_item rows)))
  else None.
Proof.
  destruct (make_batches_shape rows) as (full & cur & -> & Hall & Hc & Hcat).
  pose proof (concat_length_25 _ Hall) as Hlen.
  assert (length rows = 25 * length full + length cur) as Hrows.
  { apply (f_equal length) in Hcat. rewrite length_app, length_map in Hcat.
    unfold batch in *. lia. }
  rewrite <- Hcat. unfold batch in *.
  destruct (decide (k < length full)) as [Hlt|Hge].
  - rewrite lookup_app_l by done.
    destruct (Nat.ltb_spec (25 * k) (length rows)); [|lia].
    destruct (lookup_lt_is_Some_2 full k Hlt) as [b Hb].
    rewrite Hb. f_equal. symmetry. by apply uniform_concat_lookup.
  - rewrite lookup_app_r by lia.
    destruct cur as [|x cur]; cbn [length Nat.eqb negb] in *.
    + rewrite lookup_nil.
      destruct (Nat.ltb_spec (25 * k) (length rows)); [lia|done].
    + destruct (decide (k = length full)) as [->|Hne].
      * rewrite Nat.sub_diag. cbn [lookup list_lookup].
        destruct (Nat.ltb_spec (25 * length full) (length rows)); [|cbn in *; lia].
        f_equal. rewrite drop_app_length' by lia.
        rewrite take_ge; [done|cbn [length]; lia].
      * destruct (k - length full) as [|j] eqn:E; [lia|].
        change ([x :: cur] !! S j) with (@nil (list write_request) !! j).
        rewrite lookup_nil.
        destruct (Nat.ltb_spec (25 * k) (length rows)); [cbn [length] in *; lia|done].
Qed.

(** X1: the batch at position [k] holds the write requests of the rows at
    positions [25 k] to [25 k + 24], as many as there are; there is no batch
    at a position where no row is left. *)
Theorem make_batches_lookup (rows : list row) (k : nat) :
  make_batches rows !! k =
  if 25 * k <? length rows
  then Some (map write_item (take 25 (drop (25 * k) rows)))
  else None.
Proof.
  rewrite make_batches_lookup_aux.
  destruct (25 * k <? length rows); [|done].
  by rewrite !map_fmap, fmap_take, fmap_drop.
Qed.

(** X2: batching a sequence in two parts, the first of a multiple of 25 rows,
    gives the batches of the first part followed by those of the second. *)
Theorem make_batches_app (rows1 rows2 : list row) (m : nat) :
  length rows1 = 25 * m ->
  make_batches (rows1 ++ rows2) = make_batches rows1 ++ make_batches rows2.
Proof.
  intros Hm.
  assert (length (make_batches rows1) = m) as Hlen1.
  { rewrite make_batches_length, Hm. unfold ceil_div.
    symmetry. apply Nat.div_unique with 24; lia. }
  apply list_eq. intros k.
  rewrite make_batches_lookup_aux, length_app, map_app.
  destruct (decide (k < m)) as [Hlt|Hge].
  - rewrite lookup_app_l by (unfold batch in *; lia).
    rewrite make_batches_lookup_aux.
    destruct (Nat.ltb_spec (25 * k) (length rows1 + length rows2)); [|lia].
    destruct (Nat.ltb_spec (25 * k) (length rows1)); [|lia].
    f_equal. rewrite drop_app_le by (rewrite length_map; lia).
    rewrite take_app_le; [done|]. rewrite length_drop, length_map. lia.
  - rewrite lookup_app_r by (unfold batch in *; lia).
    rewrite make_batches_lookup_aux.
    replace (length (make_batches rows1)) with m by (unfold batch in *; lia).
    replace (25 * k) with (length (map write_item rows1) + 25 * (k - m))
      by (rewrite length_map; lia).
    rewrite drop_app_add. rewrite length_map, Hm.
    destruct (Nat.ltb_spec (25 * m + 25 * (k - m)) (25 * m + length rows2));
      destruct (Nat.ltb_spec (25 * (k - m)) (length rows2)); try lia; done.
Qed.


(** ** The bulk writes in any world *)

(** However the calls are answered, the loop sends the calls of the first
    [n] batches; it fulfils only after the last batch, and rejects with the
    answer to the last call it made. *)
Lemma write_batches_outcome (w : world) (batches : list batch) :
  forall st, exists n,
    n <= length batches /\
    snd (write_batches w batches st) = after st (batch_calls w (take n batches)) /\
    (fst (write_batches w batches st) = Fulfilled tt -> n = length batches) /\
    (forall err, fst (write_batches w batches st) = Rejected err ->
       exists k b,
         n = S k /\ batches !! k = Some b /\
         batchWrite_answer w (trace st ++ batch_calls w (take k batches)) (batch_params w b)
           = Some err).
Proof.
  induction batches as [|b bs IH]; intros st.
  - exists 0. split; [done|]. split; [|split; [done|done]].
    unfold after. cbn. rewrite app_nil_r. by destruct st.
  - cbn [write_batches]. unfold bind, ddb_batchWrite, bind, history, emit. cbn.
    destruct (batchWrite_answer w (trace st) (batch_params w b)) as [err|] eqn:Eans; cbn.
    + exists 1. split; [lia|]. split; [by destruct bs|]. split; [done|].
      intros err' [= <-]. exists 0, b. split; [done|]. split; [done|].
      cbn. by rewrite app_nil_r.
    + destruct (IH {| trace := trace st ++ [DdbBatchWrite (batch_params w b)];
                      exitCode := exitCode st |}) as (n & Hn & Hrun & Hok & Herr).
      exists (S n). split; [lia|]. split; [|split].
      * rewrite Hrun. unfold after. cbn. by rewrite <- app_assoc.
      * intros Hf. by rewrite (Hok Hf).
      * intros err Hr. destruct (Herr err Hr) as (k & bk & -> & Hk & Hans).
        exists (S k), bk. split; [done|]. split; [done|].
        cbn in Hans |- *. by rewrite <- app_assoc in Hans.
Qed.

(** X3: in any world and whatever fails, the bulk-write calls made by
    [writeToDynamoDB] are those of the first batches, in order and once each:
    never more calls than ceil(N/25), each for the one configured table and
    with between 1 and 25 items; it fulfils only when every batch was sent,
    and for no rows it makes no call and fulfils. *)
Theorem writeToDynamoDB_calls (w : world) (rows : list row) (st : state) :
  exists n,
    n <= ceil_div (length rows) 25 /\
    bulk_writes (trace (snd (writeToDynamoDB w rows st))) =
      bulk_writes (trace st) ++ map (batch_params w) (take n (make_batches rows)) /\
    (fst (writeToDynamoDB w rows st) = Fulfilled tt -> n = ceil_div (length rows) 25) /\
    (forall p, p ∈ map (batch_params w) (take n (make_batches rows)) ->
       exists b,
         RequestItems p =
           [(ToPropertyKey (DYNAMO_TABLE_NAME (read_env (process_env w))), b)] /\
         1 <= length b <= 25) /\
    (rows = [] ->
     writeToDynamoDB w rows st = (Fulfilled tt, after st [Enter fn_writeToDynamoDB])).
Proof.
  rewrite writeToDynamoDB_unfold.
  destruct (write_batches_outcome w (make_batches rows) (after st [Enter fn_writeToDynamoDB]))
    as (n & Hn & Hrun & Hok & _).
  exists n. rewrite <- make_batches_length.
  split; [unfold batch in *; lia|]. split; [|split; [|split]].
  - rewrite Hrun, after_after. cbn [trace after].
    rewrite bulk_writes_app. f_equal.
    change (Enter fn_writeToDynamoDB :: batch_calls w (take n (make_batches rows)))
      with ([Enter fn_writeToDynamoDB] ++ batch_calls w (take n (make_batches rows))).
    by rewrite bulk_writes_app, bulk_writes_batch_calls.
  - intros Hf. unfold batch in *. by apply Hok.
  - intros p Hp. rewrite map_fmap in Hp.
    apply list_elem_of_fmap in Hp as (b & -> & Hb).
    exists b. split; [done|].
    apply list_elem_of_lookup in Hb as [i Hi].
    apply lookup_take_Some in Hi as [Hi _].
    by apply (make_batches_sizes rows i b).
  - intros ->. cbn. unfold after. cbn. done.
Qed.

(** ** The whole run in any world *)

Lemma batch_calls_no_console (w : world) (batches : list batch) :
  Forall (fun e => is_console e = false) (batch_calls w batches).
Proof. induction batches; simpl; constructor; done. Qed.

Ltac no_console :=
  repeat first [ apply Forall_app_2 | apply Forall_cons_2 | apply Forall_nil_2
               | apply batch_calls_no_console | reflexivity ].

(** The final state of [main], by the step at which the run ends. *)
Lemma final_state_cases (w : world) :
  (exists err evs,
     fst (fetchAllRows w initial_state) = Rejected err /\
     snd (fetchAllRows w initial_state) = after initial_state evs /\
     Forall (fun e => is_console e = false) evs /\
     object_writes evs = [] /\ bulk_writes evs = [] /\
     final_state w = failed (after initial_state evs) err) \/
  (exists rows,
     fetchAllRows w initial_state
       = (Fulfilled rows, after initial_state (fetch_events w (PromiseResolve rows))) /\
     ((exists err,
         putObject_answer w
           (fetch_events w (PromiseResolve rows) ++ [Enter fn_dumpToS3])
           (archive_params w rows) = Some err /\
         final_state w =
           failed (after initial_state
                     (fetch_events w (PromiseResolve rows)
                      ++ [Enter fn_dumpToS3; S3PutObject (archive_params w rows)])) err) \/
      (putObject_answer w
         (fetch_events w (PromiseResolve rows) ++ [Enter fn_dumpToS3])
         (archive_params w rows) = None /\
       exists n,
         n <= length (make_batches rows) /\
         ((exists err,
             final_state w =
               failed (after initial_state
                         (fetch_events w (PromiseResolve rows)
                          ++ [Enter fn_dumpToS3; S3PutObject (archive_params w rows)]
                          ++ Enter fn_writeToDynamoDB
                             :: batch_calls w (take n (make_batches rows)))) err) \/
          (n = length (make_batches rows) /\
           final_state w =
             after initial_state
               (fetch_events w (PromiseResolve rows)
                ++ [Enter fn_dumpToS3; S3PutObject (archive_params w rows)]
                ++ (Enter fn_writeToDynamoDB :: batch_calls w (make_batches rows))
                ++ [ConsoleLog (success_message rows)])))))).
Proof.
  unfold final_state. rewrite main_run.
  rewrite fetchAllRows_run. cbv zeta.
  destruct (createConnection_answer w _) as [e|].
  { left. eexists e, _. split; [done|]. split; [done|].
    split; [no_console|]. by repeat split. }
  destruct (connect_answer w _) as [e|].
  { left. eexists e, _. split; [done|]. split; [done|].
    split; [no_console|]. by repeat split. }
  destruct (execute_answer w _ _) as [e|rows].
  { left. eexists e, _. split; [done|]. split; [done|].
    split; [no_console|]. by repeat split. }
  right. exists rows. split; [done|].
  rewrite dumpToS3_run. cbv zeta. fold (archive_params w rows).
  fold (fetch_events w (PromiseResolve rows)).
  change (trace (after initial_state (fetch_events w (PromiseResolve rows))))
    with (fetch_events w (PromiseResolve rows)).
  destruct (putObject_answer w _ _) as [e|].
  { left. exists e. split; [done|]. cbn [snd]. by rewrite after_after. }
  right. split; [done|].
  rewrite writeToDynamoDB_unfold.
  match goal with |- context [write_batches w ?bs ?st] =>
    destruct (write_batches_outcome w bs st) as (n & Hn & Hrun & Hok & _);
    destruct (write_batches w bs st) as [[[]|e] st3]
  end; cbn [fst snd] in *; subst st3; exists n; (split; [done|]).
  - right. specialize (Hok eq_refl). subst n. split; [done|].
    rewrite take_ge by done. rewrite !after_after.
    f_equal; by rewrite <- ?app_assoc.
  - left. exists e. rewrite !after_after. f_equal; f_equal; by rewrite <- ?app_assoc.
Qed.


Lemma main_fulfils (w : world) (st : state) : fst (main w st) = Fulfilled tt.
Proof.
  rewrite main_run.
  destruct (fetchAllRows w st) as [[rows|err] st1]; [|done].
  destruct (dumpToS3 w rows (archive_key w) st1) as [[u|err] st2]; [|done].
  by destruct (writeToDynamoDB w rows st2) as [[u'|err] st3].
Qed.

Lemma fetch_events_no_console (w : world) (last : event) :
  is_console last = false ->
  Forall (fun e => is_console e = false) (fetch_events w last).
Proof. intros H. unfold fetch_events. by repeat constructor. Qed.

Lemma fetchAllRows_no_console (w : world) (st : state) :
  Forall (fun e => is_console e = false) (trace st) ->
  Forall (fun e => is_console e = false) (trace (snd (fetchAllRows w st))).
Proof.
  intros Hst. rewrite fetchAllRows_run. cbv zeta.
  destruct (createConnection_answer w _) as [e|];
    [|destruct (connect_answer w _) as [e|];
      [|destruct (execute_answer w _ _) as [e|rows]]];
    cbn [snd trace after]; (apply Forall_app_2; [done|no_console]).
Qed.

Lemma dumpToS3_no_console (w : world) (rows : list row) (key : jsstring) (st : state) :
  Forall (fun e => is_console e = false) (trace st) ->
  Forall (fun e => is_console e = false) (trace (snd (dumpToS3 w rows key st))).
Proof.
  intros Hst. rewrite dumpToS3_run. cbv zeta. cbn [snd trace after].
  apply Forall_app_2; [done|no_console].
Qed.

Lemma writeToDynamoDB_no_console (w : world) (rows : list row) (st : state) :
  Forall (fun e => is_console e = false) (trace st) ->
  Forall (fun e => is_console e = false) (trace (snd (writeToDynamoDB w rows st))).
Proof.
  intros Hst. destruct (writeToDynamoDB_events w rows st) as [n ->].
  cbn [trace after]. apply Forall_app_2; [done|no_console].
Qed.

(** The three steps leave [process.exitCode] as it is. *)
Lemma steps_keep_exitCode (w : world) (rows : list row) (key : jsstring) (st : state) :
  exitCode (snd (fetchAllRows w st)) = exitCode st /\
  exitCode (snd (dumpToS3 w rows key st)) = exitCode st /\
  exitCode (snd (writeToDynamoDB w rows st)) = exitCode st.
Proof.
  split; [|split].
  - rewrite fetchAllRows_run. cbv zeta.
    destruct (createConnection_answer w _) as [e|]; [done|].
    destruct (connect_answer w _) as [e|]; [done|].
    by destruct (execute_answer w _ _) as [e|rows0].
  - by rewrite dumpToS3_run.
  - by destruct (writeToDynamoDB_events w rows st) as [n ->].
Qed.

(** X5: the promise of [main] is never rejected, so the call at the end of
    the file leaves no rejection unhandled, and loading the file as a module
    does nothing.  A run writes one line to the console, as the last thing
    it does.  It is the success line, with the exit code left unset, exactly
    when the rows were fetched and both writers fulfilled; otherwise it is
    the error of the first step that rejected, with the exit code 1.  Before
    that line the trace is that of the steps that ran. *)
Theorem script_console_and_exit (w : world) :
  fst (script true w initial_state) = Fulfilled tt /\
  snd (script true w initial_state) = final_state w /\
  (forall st, script false w st = (Fulfilled tt, st)) /\
  exists tr last,
    trace (final_state w) = tr ++ [last] /\
    Forall (fun e => is_console e = false) tr /\
    ((exitCode (final_state w) = None /\
      exit_status (final_state w) = 0%Z /\
      exists rows st1 st2 st3,
        fetchAllRows w initial_state = (Fulfilled rows, st1) /\
        dumpToS3 w rows (archive_key w) st1 = (Fulfilled tt, st2) /\
        writeToDynamoDB w rows st2 = (Fulfilled tt, st3) /\
        tr = trace st3 /\
        last = ConsoleLog (success_message rows)) \/
     (exitCode (final_state w) = Some 1%Z /\
      exit_status (final_state w) = 1%Z /\
      exists err st',
        last = ConsoleError err /\
        tr = trace st' /\
        (fetchAllRows w initial_state = (Rejected err, st') \/
         (exists rows st1,
            fetchAllRows w initial_state = (Fulfilled rows, st1) /\
            dumpToS3 w rows (archive_key w) st1 = (Rejected err, st')) \/
         (exists rows st1 st2,
            fetchAllRows w initial_state = (Fulfilled rows, st1) /\
            dumpToS3 w rows (archive_key w) st1 = (Fulfilled tt, st2) /\
            writeToDynamoDB w rows st2 = (Rejected err, st'))))).
Proof.
  split; [apply main_fulfils|]. split; [done|]. split; [done|].
  unfold final_state. rewrite main_run.
  pose proof (fetchAllRows_no_console w initial_state (Forall_nil_2 _)) as H1.
  pose proof (proj1 (steps_keep_exitCode w [] [] initial_state)) as E1.
  destruct (fetchAllRows w initial_state) as [[rows|err] st1] eqn:Hfetch;
    cbn [snd] in H1, E1.
  2:{ exists (trace st1), (ConsoleError err). split; [done|]. split; [done|].
      right. split; [done|]. split; [done|]. exists err, st1. eauto. }
  pose proof (dumpToS3_no_console w rows (archive_key w) st1 H1) as H2.
  pose proof (proj1 (proj2 (steps_keep_exitCode w rows (archive_key w) st1))) as E2.
  destruct (dumpToS3 w rows (archive_key w) st1) as [[[]|err] st2] eqn:Hdump;
    cbn [snd] in H2, E2.
  2:{ exists (trace st2), (ConsoleError err). split; [done|]. split; [done|].
      right. split; [done|]. split; [done|]. exists err, st2.
      split; [done|]. split; [done|]. right. left. eauto. }
  pose proof (writeToDynamoDB_no_console w rows st2 H2) as H3.
  pose proof (proj2 (proj2 (steps_keep_exitCode w rows [] st2))) as E3.
  destruct (writeToDynamoDB w rows st2) as [[[]|err] st3] eqn:Hwrite;
    cbn [snd] in H3, E3.
  - exists (trace st3), (ConsoleLog (success_message rows)). split; [done|]. split; [done|].
    left. assert (exitCode st3 = None) as E by (by rewrite E3, E2, E1).
    split; [done|]. split; [unfold exit_status; cbn; by rewrite E|].
    exists rows, st1, st2, st3. by repeat split.
  - exists (trace st3), (ConsoleError err). split; [done|]. split; [done|].
    right. split; [done|]. split; [done|]. exists err, st3.
    split; [done|]. split; [done|]. right. right. exists rows, st1, st2. by repeat split.
Qed.

(** X6: in any run, no bulk write is made before the archive write: the
    trace holds at most one [putObject] call, every [batchWrite] call comes
    after it, and there is one only if the archive write was answered
    without error. *)
Theorem archive_write_precedes_bulk_writes (w : world) :
  (object_writes (trace (final_state w)) = [] /\
   bulk_writes (trace (final_state w)) = []) \/
  (exists pre p post,
     trace (final_state w) = pre ++ S3PutObject p :: post /\
     object_writes pre = [] /\
     bulk_writes pre = [] /\
     object_writes post = [] /\
     (bulk_writes post <> [] -> putObject_answer w pre p = None)).
Proof.
  destruct (final_state_cases w)
    as [(err & evs & _ & _ & _ & Ho & Hb & ->)
       |(rows & _ & [(err & Hans & ->)|(Hans & n & _ & [(err & ->)|(-> & ->)])])].
  - left. cbn [trace failed after initial_state app].
    by rewrite object_writes_app, bulk_writes_app, Ho, Hb.
  - right. exists (fetch_events w (PromiseResolve rows) ++ [Enter fn_dumpToS3]),
      (archive_params w rows), [ConsoleError err].
    split; [|by repeat split].
    cbn [trace failed after initial_state app]. by rewrite <- !app_assoc.
  - right. exists (fetch_events w (PromiseResolve rows) ++ [Enter fn_dumpToS3]),
      (archive_params w rows),
      (Enter fn_writeToDynamoDB :: batch_calls w (take n (make_batches rows))
       ++ [ConsoleError err]).
    split; [|split; [done|split; [done|split; [|done]]]].
    + cbn [trace failed after initial_state app]. by rewrite <- !app_assoc.
    + change (Enter fn_writeToDynamoDB :: ?l) with ([Enter fn_writeToDynamoDB] ++ l).
      by rewrite !object_writes_app, object_writes_batch_calls.
  - right. exists (fetch_events w (PromiseResolve rows) ++ [Enter fn_dumpToS3]),
      (archive_params w rows),
      (Enter fn_writeToDynamoDB :: batch_calls w (make_batches rows)
       ++ [ConsoleLog (success_message rows)]).
    split; [|split; [done|split; [done|split; [|done]]]].
    + cbn [trace after initial_state app]. by rewrite <- !app_assoc.
    + change (Enter fn_writeToDynamoDB :: ?l) with ([Enter fn_writeToDynamoDB] ++ l).
      by rewrite !object_writes_app, object_writes_batch_calls.
Qed.


Lemma success_message_count (rows : list row) :
  exists digits,
    success_message rows = lit "Wrote " ++ digits ++ lit " records to S3 and DynamoDB" /\
    Forall (fun c => is_digit c = true) digits /\
    Integers.digits_value digits 0 = length rows.
Proof.
  exists (length_toString (length rows)). split; [done|]. split.
  - by apply decimal_digits_are_digits.
  - unfold length_toString. by rewrite digits_value_decimal_digits by lia.
Qed.

(** X7: when the three steps succeed, the run ends with the exit code unset
    and the success line as its last event; the rows are those the query
    returned; the one archive write holds their JSON text under the archive
    key; the items of the bulk writes, taken together in order, are the same
    rows, so both stores receive the same records; and the count in the
    success line is the number of rows in decimal. *)
Theorem main_success (w : world) (rows : list row) (st1 st2 st3 : state) :
  fetchAllRows w initial_state = (Fulfilled rows, st1) ->
  dumpToS3 w rows (archive_key w) st1 = (Fulfilled tt, st2) ->
  writeToDynamoDB w rows st2 = (Fulfilled tt, st3) ->
  final_state w = after st3 [ConsoleLog (success_message rows)] /\
  exitCode (final_state w) = None /\
  exit_status (final_state w) = 0%Z /\
  execute_answer w (connection_options_of (read_env (process_env w))) query_text = inr rows /\
  object_writes (trace (final_state w)) =
    [{| Bucket := S3_BUCKET (read_env (process_env w));
        Key := archive_key w;
        Body := JSON_stringify rows |}] /\
  map (fun wr => Item (PutRequest wr))
      (concat (map (fun p => concat (RequestItems p).*2) (bulk_writes (trace (final_state w)))))
    = rows /\
  exists digits,
    success_message rows = lit "Wrote " ++ digits ++ lit " records to S3 and DynamoDB" /\
    Forall (fun c => is_digit c = true) digits /\
    Integers.digits_value digits 0 = length rows.
Proof.
  intros Hfetch Hdump Hwrite.
  assert (final_state w = after st3 [ConsoleLog (success_message rows)]) as Hfinal
    by (unfold final_state; by rewrite main_run, Hfetch, Hdump, Hwrite).
  split; [done|]. rewrite Hfinal.
  rewrite writeToDynamoDB_unfold in Hwrite.
  destruct (write_batches_outcome w (make_batches rows) (after st2 [Enter fn_writeToDynamoDB]))
    as (n & Hn & Hrun & Hok & _).
  rewrite Hwrite in Hrun, Hok. cbn [fst snd] in Hrun, Hok.
  specialize (Hok eq_refl). subst n. rewrite take_ge in Hrun by done. subst st3.
  rewrite fetchAllRows_run in Hfetch. cbv zeta in Hfetch.
  destruct (createConnection_answer w _) as [e|]; [done|].
  destruct (connect_answer w _) as [e|]; [done|].
  destruct (execute_answer w _ _) as [e|rows0]; [done|].
  injection Hfetch as -> <-.
  rewrite dumpToS3_run in Hdump. cbv zeta in Hdump.
  injection Hdump as _ <-.
  split; [done|]. split; [done|]. split; [done|].
  cbn [trace after initial_state app].
  split; [|split; [|apply success_message_count]].
  - repeat match goal with
           | |- context [object_writes (S3PutObject ?p :: ?l)] =>
               change (object_writes (S3PutObject p :: l)) with (p :: object_writes l)
           | |- context [object_writes (?e :: ?l)] =>
               change (object_writes (e :: l)) with (object_writes l)
           end.
    by rewrite object_writes_app, object_writes_batch_calls.
  - repeat match goal with
           | |- context [bulk_writes (?e :: ?l)] =>
               change (bulk_writes (e :: l)) with (bulk_writes l)
           end.
    rewrite bulk_writes_app, bulk_writes_batch_calls.
    cbn [bulk_writes omap list_omap]. rewrite app_nil_r.
    by rewrite items_of_batch_params, concat_make_batches, items_of_write_items.
Qed.

(** ** The archive, for any numbers *)

(** What [JSON.parse] gives back for a value: [null] for a number that is not
    finite, [+0] for negative zero, and the value itself otherwise. *)
Lemma JSON_image_cases (v : value) :
  JSON_image v =
  if is_finite_value v
  then if is_negative_zero v then JNumber (Finite zero) else json_of_value v
  else JNull.
Proof. by destruct v as [| |[| | | |x]|]. Qed.

(** X8: whatever numbers the rows hold, the body [dumpToS3] writes is valid
    JSON: it parses as an array with one object per row, in order, each with
    the row's property names in order; under each name stands the row's
    value, except that [null] stands for a number that is not finite and
    [+0] for negative zero.  So strings survive with their quotes,
    backslashes, control characters and lone surrogates.  Numbers are
    written and read as ECMA-262 specifies ([Number_toString_spec]). *)
Theorem dumpToS3_round_trip (w : world) (rows : list row) (key : jsstring) (st : state) :
  Number_toString_spec ->
  Forall wf_row rows ->
  exists params objects,
    snd (dumpToS3 w rows key st) = after st [Enter fn_dumpToS3; S3PutObject params] /\
    JSON_parse (Body params) = Some (JArray objects) /\
    length objects = length rows /\
    forall i r, rows !! i = Some r ->
      exists members,
        objects !! i = Some (JObject members) /\
        members.*1 = own_keys r /\
        forall k,
          get k members =
          (fun v =>
             if is_finite_value v
             then if is_negative_zero v then JNumber (Finite zero) else json_of_value v
             else JNull) <$> get k r.
Proof.
  intros Hspec Hwf. rewrite dumpToS3_run. cbv zeta.
  eexists _, (map image_row rows). split; [reflexivity|]. cbn [Body].
  split; [by apply JSON_parse_stringify|]. split; [by rewrite length_map|].
  intros i r Hi. exists (image_members r).
  split; [by rewrite map_fmap, list_lookup_fmap, Hi|].
  split; [apply image_members_keys|].
  intros k. unfold image_members.
  rewrite (get_map_values JSON_image).
  destruct (get k r) as [v|]; [|done]. cbn [fmap option_fmap option_map]. f_equal.
  apply JSON_image_cases.
Qed.

Lemma json_of_value_inj (v1 v2 : value) : json_of_value v1 = json_of_value v2 -> v1 = v2.
Proof. destruct v1, v2; cbn; congruence. Qed.

Lemma image_row_inj (r1 r2 : row) :
  Forall (fun kv => is_exact_value kv.2 = true) r1 ->
  Forall (fun kv => is_exact_value kv.2 = true) r2 ->
  image_row r1 = image_row r2 -> r1 = r2.
Proof.
  intros H1 H2. unfold image_row.
  rewrite (image_members_exact r1 H1), (image_members_exact r2 H2).
  intros [= Heq]. clear H1 H2. revert r2 Heq.
  induction r1 as [|[k1 v1] r1 IH]; intros [|[k2 v2] r2] Heq; try done.
  cbn in Heq. injection Heq as -> Hv Heq.
  apply json_of_value_inj in Hv as ->. f_equal. by apply IH.
Qed.

(** X9: the archive loses nothing on rows whose numbers are finite and not
    negative zero: two such sequences of rows that are written as the same
    JSON text are the same sequence.  Numbers are written and read as
    ECMA-262 specifies ([Number_toString_spec]); negative zero is left out
    because it is written like [+0]. *)
Theorem JSON_stringify_inj (rows1 rows2 : list row) :
  Number_toString_spec ->
  Forall wf_row rows1 -> Forall wf_row rows2 ->
  exact_rows rows1 -> exact_rows rows2 ->
  JSON_stringify rows1 = JSON_stringify rows2 ->
  rows1 = rows2.
Proof.
  intros Hspec Hwf1 Hwf2 Hfin1 Hfin2 Heq.
  pose proof (JSON_parse_stringify rows1 Hspec Hwf1) as H1.
  pose proof (JSON_parse_stringify rows2 Hspec Hwf2) as H2.
  rewrite Heq, H2 in H1. injection H1 as Himg. clear Heq H2 Hwf1 Hwf2.
  revert rows2 Hfin2 Himg.
  induction Hfin1 as [|r1 rows1 Hr1 _ IH]; intros [|r2 rows2] Hfin2 Himg; try done.
  apply Forall_cons_1 in Hfin2 as [Hr2 Hfin2].
  cbn in Himg. injection Himg as Hr Himg.
  f_equal; [|by apply IH].
  apply image_row_inj; [done..|]. unfold image_row. by rewrite Hr.
Qed.

End Properties.

(** * The integers satisfy the assumptions on numbers *)

Lemma number_accepts_digit (d : nat) (s : jsstring) :
  d < 10 -> number_accepts NInt (digit_unit d :: s) = number_accepts NInt s.
Proof.
  intros Hd. cbn [number_accepts number_step]. by rewrite digit_unit_is_digit.
Qed.

Lemma number_accepts_decimal_digits (fuel : nat) :
  forall n acc,
    0 < n < fuel ->
    number_accepts NInt acc = true ->
    number_accepts NStart (decimal_digits fuel n acc) = true.
Proof.
  induction fuel as [|fuel IH]; intros n acc Hn Hacc; [lia|].
  cbn [decimal_digits].
  pose proof (Nat.mod_upper_bound n 10 ltac:(lia)) as Hmod.
  pose proof (Nat.div_mod_eq n 10) as Hdiv.
  destruct (Nat.eqb_spec (n / 10) 0) as [E|E].
  - cbn [number_accepts number_step].
    assert (digit_unit (n mod 10) <> 45%N /\ digit_unit (n mod 10) <> 48%N) as [H45 H48]
      by (unfold digit_unit; lia).
    destruct (N.eqb_spec (digit_unit (n mod 10)) 45); [done|].
    destruct (N.eqb_spec (digit_unit (n mod 10)) 48); [done|].
    by rewrite digit_unit_is_digit.
  - apply IH; [lia|]. by rewrite number_accepts_digit.
Qed.

(** The decimal text of a natural number is a JSON number token, and reading
    it gives the number back. *)
Lemma Integers_toString_spec :
  Number_toString_spec Integers.toString Integers.token_value Integers.zero.
Proof.
  split; [reflexivity|]. intros n. unfold Integers.toString, Integers.token_value, length_toString. split.
  - destruct n as [|n]; [reflexivity|].
    apply number_accepts_decimal_digits; [lia|reflexivity].
  - f_equal. by rewrite digits_value_decimal_digits by lia.
Qed.

(** * The properties on the scenarios *)

Import Scenario.

(** 52 rows go out as three calls, of 25, 25 and 2 items. *)
Example batches_of_52_rows :
  map length (make_batches (clicks 52)) = [25; 25; 2] /\
  map (fun p => map (fun tb => length tb.2) (RequestItems p))
      (bulk_writes (trace (snd (writeToDynamoDB (calm (clicks 52)) (clicks 52) initial_state))))
    = [[25]; [25]; [2]].
Proof. split; by vm_compute. Qed.

(** No rows: the body is [[]] and no bulk write is made. *)
Example no_rows :
  object_writes (trace (final_state Integers.toString (calm [])))
    = [{| Bucket := None; Key := lit "click_performance/initial_load.json"; Body := lit "[]" |}] /\
  bulk_writes (trace (final_state Integers.toString (calm []))) = [].
Proof. split; by vm_compute. Qed.

(** C2, the claim as the specification states it, fails on a row that holds
    [NaN]: the body written has [null] in its place, so the object read back
    does not hold the row's value. *)
Lemma archive_not_faithful_NaN :
  object_writes
    (trace (snd (dumpToS3 Integers.toString (calm [nan_row]) [nan_row]
                   (lit "initial_load.json") initial_state)))
    = [{| Bucket := None; Key := lit "initial_load.json"; Body := nan_body |}] /\
  ~ archive_faithful Integers.token_value [nan_row] nan_body.
Proof.
  split; [by vm_compute|].
  intros (objects & Hparse & _ & Hrows).
  assert (JSON_parse Integers.token_value nan_body
          = Some (JArray [JObject [(lit "cost", JNull)]])) as E by (by vm_compute).
  rewrite E in Hparse. injection Hparse as <-.
  destruct (Hrows 0 nan_row eq_refl) as (members & Hm & _ & Hget).
  injection Hm as <-.
  specialize (Hget (lit "cost")). by vm_compute in Hget.
Qed.

(** Negative zero is written as [0] and so read back as [+0]: the archive is
    not faithful on it either. *)
Example archive_not_faithful_negative_zero :
  JSON_stringify Integers.toString [negative_zero_row] = negative_zero_body /\
  JSON_parse Integers.token_value negative_zero_body
    = Some (JArray [JObject [(lit "delta", JNumber (Finite 0))]]) /\
  ~ archive_faithful Integers.token_value [negative_zero_row] negative_zero_body.
Proof.
  split; [by vm_compute|]. split; [by vm_compute|].
  intros (objects & Hparse & _ & Hrows).
  assert (JSON_parse Integers.token_value negative_zero_body
          = Some (JArray [JObject [(lit "delta", JNumber (Finite 0))]])) as E by (by vm_compute).
  rewrite E in Hparse. injection Hparse as <-.
  destruct (Hrows 0 negative_zero_row eq_refl) as (members & Hm & _ & Hget).
  injection Hm as <-.
  specialize (Hget (lit "delta")). by vm_compute in Hget.
Qed.

(** The two zeros are written alike. *)
Example zeros_written_alike :
  JSON_stringify Integers.toString [[(lit "delta", VNumber (Finite 0))]]
  = JSON_stringify Integers.toString [negative_zero_row].
Proof. by vm_compute. Qed.

(** When [createConnection] throws, the promise is rejected before any
    connection is attempted, and the run ends with the exit code 1. *)
Example createConnection_throws :
  fetchAllRows invalid_options initial_state =
    (Rejected refused,
     after initial_state
       [Enter fn_fetchAllRows; SfCreateConnection (connection_options_of (read_env ∅));
        PromiseReject refused]) /\
  exit_status (final_state Integers.toString invalid_options) = 1%Z.
Proof. split; by vm_compute. Qed.

Lemma click_wf (n : nat) : wf_row (click n).
Proof. unfold wf_row. apply (bool_decide_unpack _). by vm_compute. Qed.

Lemma clicks_wf (n : nat) : Forall wf_row (clicks n).
Proof.
  apply Forall_forall. intros r Hr.
  apply list_elem_of_In, in_map_iff in Hr as (x & <- & _). apply click_wf.
Qed.

Lemma clicks_exact (n : nat) : exact_rows (clicks n).
Proof.
  apply Forall_forall. intros r Hr.
  apply list_elem_of_In, in_map_iff in Hr as (x & <- & _). repeat constructor.
Qed.

Lemma dumpToS3_archive_witness :
  Number_toString_spec Integers.toString Integers.token_value Integers.zero /\
  Forall wf_row (clicks 3) /\
  exact_rows (clicks 3) /\
  exists params,
    snd (dumpToS3 Integers.toString (calm (clicks 3)) (clicks 3)
           (lit "initial_load.json") initial_state)
      = after initial_state [Enter fn_dumpToS3; S3PutObject params] /\
    Key params = lit "initial_load.json" /\
    archive_faithful Integers.token_value (clicks 3) (Body params) /\
    (clicks 3 = [] -> Body params = lit "[]").
Proof.
  split; [exact Integers_toString_spec|].
  split; [exact (clicks_wf 3)|].
  split; [exact (clicks_exact 3)|].
  exact (dumpToS3_archive Integers.toString Integers.token_value Integers.zero
           (calm (clicks 3)) (clicks 3) (lit "initial_load.json") initial_state
           Integers_toString_spec (clicks_wf 3) (clicks_exact 3)).
Defined.

Lemma main_source_failure_witness :
  fetchAllRows query_fails initial_state =
    (Rejected refused,
     after initial_state
       [Enter fn_fetchAllRows; SfCreateConnection (connection_options_of (read_env ∅));
        SfConnect; SfExecute query_text; SfDestroy; PromiseReject refused]) /\
  (Enter fn_dumpToS3 ∉ trace (final_state Integers.toString query_fails)) /\
  (Enter fn_writeToDynamoDB ∉ trace (final_state Integers.toString query_fails)) /\
  exit_status (final_state Integers.toString query_fails) = 1%Z.
Proof.
  split; [reflexivity|].
  destruct (main_source_failure Integers.toString query_fails refused _ eq_refl)
    as (_ & Hdump & Hwrite & _ & _ & _ & Hexit).
  exact (conj Hdump (conj Hwrite Hexit)).
Defined.

Lemma main_archive_failure_witness :
  fetchAllRows (archive_fails (clicks 30)) initial_state =
    (Fulfilled (clicks 30), snd (fetchAllRows (archive_fails (clicks 30)) initial_state)) /\
  dumpToS3 Integers.toString (archive_fails (clicks 30)) (clicks 30)
      (archive_key (archive_fails (clicks 30)))
      (snd (fetchAllRows (archive_fails (clicks 30)) initial_state)) =
    (Rejected refused,
     snd (dumpToS3 Integers.toString (archive_fails (clicks 30)) (clicks 30)
            (archive_key (archive_fails (clicks 30)))
            (snd (fetchAllRows (archive_fails (clicks 30)) initial_state)))) /\
  (Enter fn_writeToDynamoDB ∉ trace (final_state Integers.toString (archive_fails (clicks 30)))) /\
  bulk_writes (trace (final_state Integers.toString (archive_fails (clicks 30)))) = [] /\
  exit_status (final_state Integers.toString (archive_fails (clicks 30))) = 1%Z.
Proof.
  split; [reflexivity|]. split; [reflexivity|].
  destruct (main_archive_failure Integers.toString (archive_fails (clicks 30)) (clicks 30)
              _ _ refused eq_refl eq_refl)
    as ((_ & Hwrite & Hcalls & _ & Hexit) & _).
  exact (conj Hwrite (conj Hcalls Hexit)).
Defined.

Lemma writeToDynamoDB_failed_batch_witness :
  make_batches (clicks 60) !! 1 = Some (map write_item (take 25 (drop 25 (clicks 60)))) /\
  batchWrite_answer (second_batch_fails (clicks 60))
    (trace initial_state ++ Enter fn_writeToDynamoDB
       :: batch_calls (second_batch_fails (clicks 60)) (take 0 (make_batches (clicks 60))))
    (batch_params (second_batch_fails (clicks 60)) (map write_item (take 25 (clicks 60))))
    = None /\
  batchWrite_answer (second_batch_fails (clicks 60))
    (trace initial_state ++ Enter fn_writeToDynamoDB
       :: batch_calls (second_batch_fails (clicks 60)) (take 1 (make_batches (clicks 60))))
    (batch_params (second_batch_fails (clicks 60))
       (map write_item (take 25 (drop 25 (clicks 60)))))
    = Some refused /\
  writeToDynamoDB (second_batch_fails (clicks 60)) (clicks 60) initial_state =
    (Rejected refused,
     after initial_state
       (Enter fn_writeToDynamoDB
        :: batch_calls (second_batch_fails (clicks 60)) (take 2 (make_batches (clicks 60))))) /\
  length (make_batches (clicks 60)) = 3.
Proof.
  assert (make_batches (clicks 60) !! 1 = Some (map write_item (take 25 (drop 25 (clicks 60)))))
    as Hk by (by vm_compute).
  split; [exact Hk|]. split; [by vm_compute|]. split; [by vm_compute|].
  split; [|by vm_compute].
  refine (proj1 (writeToDynamoDB_failed_batch (second_batch_fails (clicks 60)) (clicks 60)
                   initial_state 1 _ refused Hk _ _)).
  - intros i bi Hi Hbi. destruct i as [|i]; [reflexivity|lia].
  - by vm_compute.
Defined.

(** C6, the claim as the specification states it, fails when connecting
    fails: the promise is rejected and [connection.destroy] was not called. *)
Lemma fetchAllRows_no_release_unreachable :
  fetchAllRows unreachable initial_state =
    (Rejected refused,
     after initial_state
       [Enter fn_fetchAllRows; SfCreateConnection (connection_options_of (read_env ∅));
        SfConnect; PromiseReject refused]) /\
  ~ released_before_settled (trace (snd (fetchAllRows unreachable initial_state))).
Proof.
  split; [reflexivity|].
  intros Hrel.
  specialize (Hrel
    [Enter fn_fetchAllRows; SfCreateConnection (connection_options_of (read_env ∅)); SfConnect]
    (PromiseReject refused) [] eq_refl eq_refl).
  revert Hrel. trace_membership.
Qed.

Lemma archive_deterministic_witness :
  clicks 3 = clicks 3 /\
  exists p1 p2,
    snd (dumpToS3 Integers.toString (calm (clicks 3)) (clicks 3)
           (archive_key (calm (clicks 3))) initial_state)
      = after initial_state [Enter fn_dumpToS3; S3PutObject p1] /\
    snd (dumpToS3 Integers.toString (archive_fails []) (clicks 3)
           (archive_key (archive_fails [])) (failed initial_state refused))
      = after (failed initial_state refused) [Enter fn_dumpToS3; S3PutObject p2] /\
    Body p1 = Body p2 /\
    (process_env (calm (clicks 3)) !! "S3_KEY_PREFIX"%string
       = process_env (archive_fails []) !! "S3_KEY_PREFIX"%string ->
     Key p1 = Key p2).
Proof.
  split; [reflexivity|].
  exact (archive_deterministic Integers.toString (calm (clicks 3)) (archive_fails [])
           (clicks 3) (clicks 3) initial_state (failed initial_state refused) eq_refl).
Defined.

(** With the prefix set to the empty string the key is the file name alone. *)
Example archive_key_empty_prefix :
  archive_key empty_prefix = lit "initial_load.json" /\
  Key <$> object_writes (trace (final_state Integers.toString empty_prefix))
    = [lit "initial_load.json"].
Proof. split; by vm_compute. Qed.

(** With no prefix set the default stands in. *)
Example archive_key_default_prefix :
  archive_key (calm []) = lit "click_performance/initial_load.json".
Proof. by vm_compute. Qed.

(** * The further properties on the scenarios *)

Lemma make_batches_app_witness :
  length (clicks 50) = 25 * 2 /\
  make_batches (clicks 50 ++ clicks 7) = make_batches (clicks 50) ++ make_batches (clicks 7).
Proof.
  split; [reflexivity|].
  exact (make_batches_app (clicks 50) (clicks 7) 2 eq_refl).
Defined.

Lemma main_success_witness :
  fetchAllRows (calm (clicks 30)) initial_state =
    (Fulfilled (clicks 30), snd (fetchAllRows (calm (clicks 30)) initial_state)) /\
  fst (dumpToS3 Integers.toString (calm (clicks 30)) (clicks 30)
         (archive_key (calm (clicks 30)))
         (snd (fetchAllRows (calm (clicks 30)) initial_state))) = Fulfilled tt /\
  exitCode (final_state Integers.toString (calm (clicks 30))) = None /\
  object_writes (trace (final_state Integers.toString (calm (clicks 30)))) =
    [{| Bucket := None;
        Key := archive_key (calm (clicks 30));
        Body := JSON_stringify Integers.toString (clicks 30) |}] /\
  map (fun wr => Item (PutRequest wr))
      (concat (map (fun p => concat (RequestItems p).*2)
                 (bulk_writes (trace (final_state Integers.toString (calm (clicks 30)))))))
    = clicks 30.
Proof.
  split; [reflexivity|]. split; [reflexivity|].
  destruct (main_success Integers.toString (calm (clicks 30)) (clicks 30) _ _ _
              eq_refl eq_refl eq_refl)
    as (_ & Hexit & _ & _ & Harchive & Hitems & _).
  exact (conj Hexit (conj Harchive Hitems)).
Defined.

Lemma nan_row_wf : wf_row nan_row.
Proof. unfold wf_row. apply (bool_decide_unpack _). by vm_compute. Qed.

Lemma dumpToS3_round_trip_witness :
  Number_toString_spec Integers.toString Integers.token_value Integers.zero /\
  Forall wf_row [nan_row; click 7] /\
  exists params objects,
    snd (dumpToS3 Integers.toString (calm []) [nan_row; click 7]
           (lit "initial_load.json") initial_state)
      = after initial_state [Enter fn_dumpToS3; S3PutObject params] /\
    JSON_parse Integers.token_value (Body params) = Some (JArray objects) /\
    length objects = 2.
Proof.
  assert (Forall wf_row [nan_row; click 7]) as Hwf
    by (apply Forall_cons_2; [exact nan_row_wf|];
        apply Forall_cons_2; [exact (click_wf 7)|apply Forall_nil_2]).
  split; [exact Integers_toString_spec|]. split; [exact Hwf|].
  destruct (dumpToS3_round_trip Integers.toString Integers.token_value Integers.zero (calm [])
              [nan_row; click 7] (lit "initial_load.json") initial_state
              Integers_toString_spec Hwf)
    as (params & objects & Hrun & Hparse & Hlen & _).
  exact (ex_intro _ params (ex_intro _ objects (conj Hrun (conj Hparse Hlen)))).
Defined.

Lemma JSON_stringify_inj_witness :
  JSON_stringify Integers.toString (clicks 3)
    = JSON_stringify Integers.toString [click 0; click 1; click 2] /\
  clicks 3 = [click 0; click 1; click 2].
Proof.
  split; [reflexivity|].
  exact (JSON_stringify_inj Integers.toString Integers.token_value Integers.zero
           (clicks 3) [click 0; click 1; click 2]
           Integers_toString_spec (clicks_wf 3) (clicks_wf 3)
           (clicks_exact 3) (clicks_exact 3) eq_refl).
Defined.
